(** * gradio_rag.py: chunking, incremental indexing and streamed answers

    A shallow embedding of [load_all_chunks], [get_embedding],
    [build_index] and [ask_with_context_stream], followed by the
    properties the specification states about them.

    Python values are modelled as follows.
    - [str] is a list of Unicode code points ([N]); slicing, [len] and
      concatenation are the list operations.
    - [bytes] is a list of [Byte.byte].
    - [int] is [Z]; a [float] is a binary64 value of [SpecFloat].
    - the values [json.loads] may build are the inductive [pyval].
    - an exception is a value of [exn]; code that may raise returns a sum.
    - the Chroma collection is a finite map from ids to entries.
    - everything outside the process (embedding service, similarity
      search, generation service) answers through oracles stored in the
      [world]; each call is appended to the world's trace. *)

From Stdlib Require Import ZArith NArith List Bool Ascii String Lia.
From Stdlib Require Import Decimal DecimalNat SpecFloat.
From stdpp Require Import base gmap sets list sorting.

(** ** Python strings *)

Abbreviation str := (list N).

(** A literal of the source, character by character. *)
Definition lit (s : string) : str := map N_of_ascii (list_ascii_of_string s).

(** [str.isspace] on one character: the code points CPython treats as
    whitespace. *)
Definition isspace (c : N) : bool :=
  (((9 <=? c) && (c <=? 13)) || ((28 <=? c) && (c <=? 32))
   || (c =? 133) || (c =? 160) || (c =? 5760)
   || ((8192 <=? c) && (c <=? 8202))
   || (c =? 8232) || (c =? 8233) || (c =? 8239) || (c =? 8287)
   || (c =? 12288))%N.

Fixpoint lstrip (s : str) : str :=
  match s with
  | c :: s' => if isspace c then lstrip s' else s
  | [] => []
  end.

Definition rstrip (s : str) : str := rev (lstrip (rev s)).

(** [s.strip()] *)
Definition strip (s : str) : str := rstrip (lstrip s).

(** [s == t] on strings. *)
Definition str_eqb (s t : str) : bool := bool_decide (s = t).

(** [s.startswith(p)] *)
Fixpoint startswith (s p : str) : bool :=
  match p, s with
  | [], _ => true
  | a :: p', b :: s' => (a =? b)%N && startswith s' p'
  | _ :: _, [] => false
  end.

(** [text[i:j]] for indices [0 <= i]; Python clamps both ends to [len]. *)
Definition slice (text : str) (i j : nat) : str := take (j - i) (drop i text).

(** [text[i:]] *)
Definition slice_from (text : str) (i : nat) : str := drop i text.

(** [str(n)] for a non-negative integer: its decimal digits. *)
Fixpoint digits (d : uint) : str :=
  match d with
  | Nil => []
  | D0 d => 48%N :: digits d
  | D1 d => 49%N :: digits d
  | D2 d => 50%N :: digits d
  | D3 d => 51%N :: digits d
  | D4 d => 52%N :: digits d
  | D5 d => 53%N :: digits d
  | D6 d => 54%N :: digits d
  | D7 d => 55%N :: digits d
  | D8 d => 56%N :: digits d
  | D9 d => 57%N :: digits d
  end.

Definition str_of_nat (n : nat) : str := digits (Nat.to_uint n).

(** [sep.join(parts)] *)
Fixpoint join (sep : str) (parts : list str) : str :=
  match parts with
  | [] => []
  | [p] => p
  | p :: rest => p ++ sep ++ join sep rest
  end.

(** [range(start, stop, step)] for [0 < step], as a list.  [fuel] bounds
    the number of elements; [stop - start] is always enough. *)
Fixpoint range_from (fuel start stop step : nat) : list nat :=
  match fuel with
  | O => []
  | S fuel' =>
      if start <? stop
      then start :: range_from fuel' (start + step) stop step
      else []
  end.

Definition range (start stop step : nat) : list nat :=
  range_from (stop - start) start stop step.

(** [list(enumerate(l))] counting from [start]. *)
Fixpoint enumerate_from {A} (start : nat) (l : list A) : list (nat * A) :=
  match l with
  | [] => []
  | x :: l' => (start, x) :: enumerate_from (S start) l'
  end.

Definition enumerate {A} (l : list A) : list (nat * A) := enumerate_from 0 l.

(** ** Exceptions *)

(** The exceptions the modelled code can meet.  [LibraryError] stands for
    whatever [requests], [chromadb] or the file system raise (connection
    failures, HTTP error statuses, time-outs, unreadable files); its
    argument is the exception's text.  All of them are subclasses of
    [Exception]; only [JSONDecodeError] is a [json.JSONDecodeError]. *)
Inductive exn :=
| ValueError
| TypeError
| AttributeError
| KeyError
| OverflowError
| UnicodeDecodeError
| IndexError
| RecursionError
| JSONDecodeError
| LibraryError (text : str).

Definition is_JSONDecodeError (e : exn) : bool :=
  match e with JSONDecodeError => true | _ => false end.

(** ** Python values *)

#[local] Set Warnings "-register-all".

(** A [dict] is kept as an association list in insertion order; the first
    binding of a key is the one the dict holds. *)
Inductive pyval :=
| PyNone
| PyBool (b : bool)
| PyInt (z : Z)
| PyFloat (f : spec_float)
| PyStr (s : str)
| PyList (l : list pyval)
| PyDict (d : list (str * pyval)).

(** Truth value of an object, as [if x:] and [not x] compute it. *)
Definition truthy (v : pyval) : bool :=
  match v with
  | PyNone => false
  | PyBool b => b
  | PyInt z => negb (z =? 0)%Z
  | PyFloat (S754_zero _) => false
  | PyFloat _ => true
  | PyStr s => negb (bool_decide (s = []))
  | PyList l => match l with [] => false | _ => true end
  | PyDict d => match d with [] => false | _ => true end
  end.

(** [d.get(key)], [None] when the key is absent. *)
Fixpoint dict_lookup (d : list (str * pyval)) (key : str) : option pyval :=
  match d with
  | [] => None
  | (k, v) :: d' => if str_eqb k key then Some v else dict_lookup d' key
  end.

(** [d.get(key, default)] *)
Definition dict_get (d : list (str * pyval)) (key : str) (default : pyval) : pyval :=
  match dict_lookup d key with
  | Some v => v
  | None => default
  end.

(** [key in d] *)
Definition dict_contains (d : list (str * pyval)) (key : str) : bool :=
  match dict_lookup d key with
  | Some _ => true
  | None => false
  end.

(** [x or y] *)
Definition py_or (x y : pyval) : pyval := if truthy x then x else y.

(** Conversion of an [int] to a [float]: rounds to nearest even and raises
    [OverflowError] beyond the binary64 range. *)
Definition float_of_int (z : Z) : exn + spec_float :=
  match binary_normalize 53 1024 z 0 false with
  | S754_infinity _ => inl OverflowError
  | f => inr f
  end.

Definition float_add (x y : spec_float) : spec_float := SFadd 53 1024 x y.

(** A number as the arithmetic operators see it ([bool] is an [int]). *)
Inductive number :=
| NumInt (z : Z)
| NumFloat (f : spec_float).

Definition as_number (v : pyval) : option number :=
  match v with
  | PyBool b => Some (NumInt (if b then 1 else 0))
  | PyInt z => Some (NumInt z)
  | PyFloat f => Some (NumFloat f)
  | _ => None
  end.

Definition number_add (a b : number) : exn + pyval :=
  match a, b with
  | NumInt x, NumInt y => inr (PyInt (x + y))
  | NumFloat x, NumFloat y => inr (PyFloat (float_add x y))
  | NumInt x, NumFloat y =>
      match float_of_int x with
      | inl e => inl e
      | inr fx => inr (PyFloat (float_add fx y))
      end
  | NumFloat x, NumInt y =>
      match float_of_int y with
      | inl e => inl e
      | inr fy => inr (PyFloat (float_add x fy))
      end
  end.

(** The items [list.extend] takes from an iterable; [None] when the object
    is not iterable. *)
Definition iterate (v : pyval) : option (list pyval) :=
  match v with
  | PyStr s => Some (map (fun c => PyStr [c]) s)
  | PyList l => Some l
  | PyDict d => Some (map (fun kv => PyStr (fst kv)) d)
  | _ => None
  end.

(** [a += b], giving the new value of [a]. *)
Definition py_iadd (a b : pyval) : exn + pyval :=
  match a with
  | PyStr s =>
      match b with
      | PyStr t => inr (PyStr (s ++ t))
      | _ => inl TypeError
      end
  | PyList l =>
      match iterate b with
      | Some items => inr (PyList (l ++ items))
      | None => inl TypeError
      end
  | PyNone | PyDict _ => inl TypeError
  | PyBool _ | PyInt _ | PyFloat _ =>
      match as_number a, as_number b with
      | Some x, Some y => number_add x y
      | _, _ => inl TypeError
      end
  end.

(** ** Bytes and UTF-8 *)

Abbreviation bytes := (list Byte.byte).

Definition continuation (b : N) : bool := ((128 <=? b) && (b <=? 191))%N.

(** Strict UTF-8 decoding of a sequence of byte values: shortest form
    only, no surrogates, nothing above U+10FFFF. *)
Fixpoint utf8_decode (bs : list N) : option str :=
  match bs with
  | [] => Some []
  | b0 :: r0 =>
      if (b0 <? 128)%N then cons b0 <$> utf8_decode r0
      else if ((194 <=? b0) && (b0 <=? 223))%N then
        match r0 with
        | b1 :: r1 =>
            if continuation b1
            then cons ((b0 - 192) * 64 + (b1 - 128))%N <$> utf8_decode r1
            else None
        | _ => None
        end
      else if ((224 <=? b0) && (b0 <=? 239))%N then
        match r0 with
        | b1 :: b2 :: r2 =>
            if continuation b1 && continuation b2
               && (negb (b0 =? 224)%N || (160 <=? b1)%N)
               && (negb (b0 =? 237)%N || (b1 <=? 159)%N)
            then cons ((b0 - 224) * 4096 + (b1 - 128) * 64 + (b2 - 128))%N
                   <$> utf8_decode r2
            else None
        | _ => None
        end
      else if ((240 <=? b0) && (b0 <=? 244))%N then
        match r0 with
        | b1 :: b2 :: b3 :: r3 =>
            if continuation b1 && continuation b2 && continuation b3
               && (negb (b0 =? 240)%N || (144 <=? b1)%N)
               && (negb (b0 =? 244)%N || (b1 <=? 143)%N)
            then cons ((b0 - 240) * 262144 + (b1 - 128) * 4096
                       + (b2 - 128) * 64 + (b3 - 128))%N
                   <$> utf8_decode r3
            else None
        | _ => None
        end
      else None
  end.

(** [line.decode("utf-8")] *)
Definition decode (line : bytes) : exn + str :=
  match utf8_decode (map Byte.to_N line) with
  | Some s => inr s
  | None => inl UnicodeDecodeError
  end.

(** ASCII text as bytes, for writing wire lines. *)
Definition ascii_bytes (s : string) : bytes :=
  map byte_of_ascii (list_ascii_of_string s).

(** ** Library functions left abstract *)

(** Three pure functions of the Python runtime and standard library are
    parameters of the model: the ordering of [Path] objects (which depends
    on the platform), the text [str(e)] of an exception, and [json.loads],
    which returns a value or raises ([JSONDecodeError] on malformed input). *)
Class Externals := {
  path_lt : str -> str -> bool;
  exn_str : exn -> str;
  json_loads : str -> exn + pyval;
}.

(** ** Settings *)

(** The model names and the address of the services only appear in the
    requests, whose replies the model takes from the world; the directory
    [DATA_DIR] is the world's [data_dir]. *)
Definition CHUNK_SIZE : Z := 5000.

(** ** Chunking: [load_all_chunks] *)

(** One [*.txt] file of the document directory: its path and what
    [read_text(encoding="utf-8")] gives for it. *)
Record file := File {
  path : str;
  read_text : exn + str;
}.

Section Chunker.
Context {libs : Externals}.

(** [sorted(files)]: a stable sort by path. *)
Fixpoint insert_file (f : file) (l : list file) : list file :=
  match l with
  | [] => [f]
  | g :: l' =>
      if path_lt (path g) (path f) then g :: insert_file f l' else f :: l
  end.

Definition sorted (files : list file) : list file :=
  foldr insert_file [] files.

(** [[text[i:i + chunk_size] for i in range(0, len(text), chunk_size)]].
    [range] raises on a zero step and is empty on a negative one. *)
Definition file_chunks (text : str) (chunk_size : Z) : exn + list str :=
  match chunk_size with
  | Z0 => inl ValueError
  | Zneg _ => inr []
  | Zpos p =>
      let size := Pos.to_nat p in
      inr (map (fun i => slice text i (i + size)) (range 0 (length text) size))
  end.

(** The [for file in files] loop; [chunks] is the list built so far. *)
Fixpoint load_loop (files : list file) (chunk_size : Z) (chunks : list str)
  : exn + list str :=
  match files with
  | [] => inr chunks
  | f :: files' =>
      match read_text f with
      | inl e => inl e
      | inr raw =>
          let text := strip raw in
          if negb (truthy (PyStr text)) then load_loop files' chunk_size chunks
          else
            match file_chunks text chunk_size with
            | inl e => inl e
            | inr fc => load_loop files' chunk_size (chunks ++ fc)
            end
      end
  end.

Definition load_all_chunks (data_dir : list file) (chunk_size : Z)
  : exn + list str :=
  load_loop (sorted data_dir) chunk_size [].

End Chunker.

(** ** The world outside the functions *)

(** One record of the Chroma collection. *)
Record entry := Entry {
  document : str;
  embedding : pyval;
}.

(** What the functions do to the outside, in order. *)
Inductive event :=
| EmbedCall (text : str)
| CountCall
| GetCall (limit : nat)
| AddCall (id document : str) (emb : pyval)
| QueryCall (query_embedding : pyval) (n_results : Z)
| GenerateCall (prompt : str)
| ProgressCall (current : nat) (desc : str).

(** An HTTP response with a JSON body: what [raise_for_status] raises, if
    anything, and what [r.json()] gives. *)
Record json_response := JsonResponse {
  json_status : option exn;
  json_body : exn + pyval;
}.

(** A streamed HTTP response: what [raise_for_status] raises, if anything,
    the lines [iter_lines] delivers, and the exception it raises after the
    last of them when the connection breaks or times out. *)
Record stream_response := StreamResponse {
  stream_status : option exn;
  stream_lines : list bytes;
  stream_failure : option exn;
}.

(** The state of the world: the [*.txt] files of [DATA_DIR], the
    collection, the services (each answers a request knowing everything
    that happened before it; [inl] is an exception raised by the call
    itself), and the trace of events so far. *)
Record world := World {
  data_dir : list file;
  collection : gmap str entry;
  embed_api : list event -> str -> exn + json_response;
  query_api : list event -> pyval -> Z -> exn + pyval;
  generate_api : list event -> str -> exn + stream_response;
  trace : list event;
}.

Definition record_event (ev : event) (w : world) : world :=
  World (data_dir w) (collection w) (embed_api w) (query_api w)
        (generate_api w) (trace w ++ [ev]).

Definition record_events (tr : list event) (w : world) : world :=
  World (data_dir w) (collection w) (embed_api w) (query_api w)
        (generate_api w) (trace w ++ tr).

Definition set_collection (c : gmap str entry) (w : world) : world :=
  World (data_dir w) c (embed_api w) (query_api w) (generate_api w) (trace w).

(** Computations that act on the world. *)
Definition io (A : Type) : Type := world -> A * world.

Definition io_ret {A} (x : A) : io A := fun w => (x, w).

Definition io_bind {A B} (m : io A) (k : A -> io B) : io B :=
  fun w => let '(x, w') := m w in k x w'.

Declare Scope io_scope.
Delimit Scope io_scope with io.
Notation "x <- m ;; k" := (io_bind m (fun x => k))
  (at level 100, m at next level, right associativity) : io_scope.
Notation "m ;;; k" := (io_bind m (fun _ => k))
  (at level 100, right associativity) : io_scope.

(** *** The Chroma collection *)

(** The collection is a local persistent store keyed by id.  Counting,
    listing and adding are taken to succeed; the similarity search, which
    the source guards with a handler, takes its answer from the world. *)

(** [collection.count()] *)
Definition collection_count : io nat :=
  fun w => (size (collection w), record_event CountCall w).

(** [collection.get(limit=limit)["ids"]] *)
Definition collection_get_ids (limit : nat) : io (list str) :=
  fun w => (take limit (map fst (map_to_list (collection w))),
            record_event (GetCall limit) w).

(** [collection.add(ids=[id], documents=[doc], embeddings=[emb])]; a record
    whose id is already stored is left as it is. *)
Definition collection_add (id doc : str) (emb : pyval) : io unit :=
  fun w =>
    let c := collection w in
    let c' := match c !! id with
              | Some _ => c
              | None => <[id := Entry doc emb]> c
              end in
    (tt, record_event (AddCall id doc emb) (set_collection c' w)).

(** [collection.query(query_embeddings=[q], n_results=k)] *)
Definition collection_query (q : pyval) (k : Z) : io (exn + pyval) :=
  fun w => (query_api w (trace w) q k, record_event (QueryCall q k) w).

(** [progress(current, desc=desc)], for a progress tracker that takes the
    call: the call is an event of the trace and has no other effect. *)
Definition progress (current : nat) (desc : str) : io unit :=
  fun w => (tt, record_event (ProgressCall current desc) w).

(** ** Embedding: [get_embedding] *)

(** [v[key]] for a string key. *)
Definition subscript (v : pyval) (key : str) : exn + pyval :=
  match v with
  | PyDict d =>
      match dict_lookup d key with
      | Some x => inr x
      | None => inl KeyError
      end
  | _ => inl TypeError
  end.

(** What [get_embedding] makes of the reply to its POST:
    [r.raise_for_status()], then [r.json()["embedding"]]. *)
Definition embedding_of (reply : exn + json_response) : exn + pyval :=
  match reply with
  | inl e => inl e
  | inr r =>
      match json_status r with
      | Some e => inl e
      | None =>
          match json_body r with
          | inl e => inl e
          | inr body => subscript body (lit "embedding")
          end
      end
  end.

Definition get_embedding (text : str) : io (exn + pyval) :=
  fun w => (embedding_of (embed_api w (trace w) text),
            record_event (EmbedCall text) w).

(** ** Incremental indexing: [build_index] *)

Section Indexer.
Context {libs : Externals}.
Local Open Scope io_scope.

Definition skipping (idx total : nat) : str :=
  lit "Skipping " ++ str_of_nat (idx + 1) ++ lit "/" ++ str_of_nat total
  ++ lit " (exists)".

Definition embedded (idx total : nat) : str :=
  lit "Embedded " ++ str_of_nat (idx + 1) ++ lit "/" ++ str_of_nat total.

(** The three status strings [build_index] returns. *)
Definition no_documents : str :=
  lit "No .txt files found in the research_papers folder.".

Definition embedding_error (e : exn) : str :=
  lit "Error getting embedding from Ollama: " ++ exn_str e.

Definition built_status (n : nat) : str :=
  lit "Index built/updated. " ++ str_of_nat n ++ lit " total vectors stored.".

(** The [for idx, chunk in enumerate(all_chunks)] loop.  The result is
    the value of an early [return], if one was executed. *)
Fixpoint build_loop (items : list (nat * str)) (total : nat)
    (existing_ids : gset str) : io (option str) :=
  match items with
  | [] => io_ret None
  | (idx, chunk) :: items' =>
      let chunk_id := str_of_nat idx in
      if bool_decide (chunk_id ∈ existing_ids) then
        progress (idx + 1) (skipping idx total) ;;;
        build_loop items' total existing_ids
      else
        r <- get_embedding chunk ;;
        match r with
        | inl e =>
            io_ret (Some (embedding_error e))
        | inr emb =>
            collection_add chunk_id chunk emb ;;;
            progress (idx + 1) (embedded idx total) ;;;
            build_loop items' total existing_ids
        end
  end.

(** The ids already stored, fetched once before the loop. *)
Definition fetch_existing_ids : io (gset str) :=
  n <- collection_count ;;
  if 0 <? n then
    limit <- collection_count ;;
    ids <- collection_get_ids limit ;;
    io_ret (list_to_set ids)
  else io_ret ∅.

(** [gr.Progress(total=total)], the expression of the [with] statement.
    The constructor of gradio's [Progress] has the single parameter
    [track_tqdm], so the keyword [total] makes the call raise [TypeError]
    before there is an object to enter (the class is no context manager
    either: it defines no [__enter__]). *)
Definition gr_Progress (total : nat) : exn + unit := inl TypeError.

(** [build_index()]: the returned status, or the exception that leaves
    the function. *)
Definition build_index : io (exn + str) :=
  fun w =>
    match load_all_chunks (data_dir w) CHUNK_SIZE with
    | inl e => (inl e, w)
    | inr all_chunks =>
        let total := length all_chunks in
        if total =? 0 then
          (inr no_documents, w)
        else
          (existing_ids <- fetch_existing_ids ;;
           match gr_Progress total with
           | inl e => io_ret (inl e)
           | inr _ =>
               r <- build_loop (enumerate all_chunks) total existing_ids ;;
               match r with
               | Some status => io_ret (inr status)
               | None =>
                   n <- collection_count ;;
                   io_ret (inr (built_status n))
               end
           end) w
    end.

End Indexer.

(** ** Streamed answers: [ask_with_context_stream] *)

Definition newline : str := [10%N].

(** [v[0]] *)
Definition first_item (v : pyval) : exn + pyval :=
  match v with
  | PyList (x :: _) => inr x
  | PyList [] => inl IndexError
  | PyStr (c :: _) => inr (PyStr [c])
  | PyStr [] => inl IndexError
  | PyDict _ => inl KeyError
  | _ => inl TypeError
  end.

(** [results.get("documents", [[]])[0]] *)
Definition documents_of (results : pyval) : exn + pyval :=
  match results with
  | PyDict d => first_item (dict_get d (lit "documents") (PyList [PyList []]))
  | _ => inl AttributeError
  end.

(** The strings of a list of objects, if they all are strings. *)
Fixpoint all_str (items : list pyval) : option (list str) :=
  match items with
  | [] => Some []
  | PyStr s :: items' => cons s <$> all_str items'
  | _ :: _ => None
  end.

(** ["\n\n".join(docs) if docs else ""] *)
Definition context_of (docs : pyval) : exn + str :=
  if truthy docs then
    match iterate docs with
    | Some items =>
        match all_str items with
        | Some parts => inr (join (newline ++ newline) parts)
        | None => inl TypeError
        end
    | None => inl TypeError
    end
  else inr [].

Definition make_prompt (context question : str) : str :=
  lit "Use the following research context to answer the question concisely and accurately:"
  ++ newline ++ newline ++ context ++ newline ++ newline
  ++ lit "Question: " ++ question ++ newline ++ lit "Answer:".

(** [requests.post(stream_url, json=payload, stream=True, timeout=120)] *)
Definition post_generate (prompt : str) : io (exn + stream_response) :=
  fun w => (generate_api w (trace w) prompt, record_event (GenerateCall prompt) w).

(** What one pass through the body of the [for line in r.iter_lines()]
    loop does: go on to the next line, or produce the accumulator. *)
Inductive step :=
| Continue
| Yield (accumulated : str).

Section Stream.
Context {libs : Externals}.

(** [ch.get("delta", {}).get("content", "") or ch.get("text", "") or ""] *)
Definition choice_text (ch : list (str * pyval)) : exn + pyval :=
  match dict_get ch (lit "delta") (PyDict []) with
  | PyDict delta =>
      inr (py_or (py_or (dict_get delta (lit "content") (PyStr []))
                        (dict_get ch (lit "text") (PyStr [])))
                 (PyStr []))
  | _ => inl AttributeError
  end.

(** The [for ch in choices] loop. *)
Fixpoint choices_loop (choices : list pyval) (chunk_text : pyval)
  : exn + pyval :=
  match choices with
  | [] => inr chunk_text
  | PyDict ch :: choices' =>
      match choice_text ch with
      | inl e => inl e
      | inr piece =>
          match py_iadd chunk_text piece with
          | inl e => inl e
          | inr chunk_text' => choices_loop choices' chunk_text'
          end
      end
  | _ :: choices' => choices_loop choices' chunk_text
  end.

(** The value of [chunk_text] once the payload has been inspected. *)
Definition extract_chunk_text (payload_chunk : pyval) : exn + pyval :=
  match payload_chunk with
  | PyDict d =>
      let chunk_text := dict_get d (lit "response") (PyStr []) in
      if negb (truthy chunk_text) && dict_contains d (lit "choices") then
        match dict_lookup d (lit "choices") with
        | Some (PyList (ch :: choices')) => choices_loop (ch :: choices') chunk_text
        | _ => inr chunk_text
        end
      else inr chunk_text
  | _ => inr (PyStr [])
  end.

(** The statements inside the inner [try], for a non-empty line. *)
Definition line_body (line : bytes) (accumulated : str) : exn + step :=
  match decode line with
  | inl e => inl e
  | inr decoded =>
      let text_line := strip decoded in
      let json_part :=
        if startswith text_line (lit "data:")
        then strip (slice_from text_line (length (lit "data:")))
        else text_line in
      if str_eqb json_part (lit "[DONE]") || str_eqb json_part [] then inr Continue
      else
        match json_loads json_part with
        | inl e => inl e
        | inr payload_chunk =>
            match extract_chunk_text payload_chunk with
            | inl e => inl e
            | inr chunk_text =>
                if truthy chunk_text then
                  (* accumulated += chunk_text: a string, or TypeError *)
                  match py_iadd (PyStr accumulated) chunk_text with
                  | inr (PyStr accumulated') => inr (Yield accumulated')
                  | inr _ => inl TypeError
                  | inl e => inl e
                  end
                else inr Continue
            end
        end
  end.

(** The inner [try ... except json.JSONDecodeError: continue]. *)
Definition handle_line (line : bytes) (accumulated : str) : exn + step :=
  match line_body line accumulated with
  | inl e => if is_JSONDecodeError e then inr Continue else inl e
  | inr s => inr s
  end.

(** The [for line in r.iter_lines()] loop over the lines delivered: the
    values produced, and the accumulator at the end or the exception that
    left the loop. *)
Fixpoint stream_loop (lines : list bytes) (accumulated : str)
  : list str * (exn + str) :=
  match lines with
  | [] => ([], inr accumulated)
  | line :: lines' =>
      match line with
      | [] => stream_loop lines' accumulated
      | _ :: _ =>
          match handle_line line accumulated with
          | inl e => ([], inl e)
          | inr Continue => stream_loop lines' accumulated
          | inr (Yield accumulated') =>
              let '(produced, result) := stream_loop lines' accumulated' in
              (accumulated' :: produced, result)
          end
      end
  end.

Definition generate_error (e : exn) : str :=
  lit "Error calling Ollama generate API: " ++ exn_str e.

Definition enter_a_question : str := lit "Please enter a question.".

(** Everything from the outer [try] to the end of the function, given
    the outcome of the POST: the values produced, in order. *)
Definition stream_answer (reply : exn + stream_response) : list str :=
  match reply with
  | inl e => [generate_error e]
  | inr r =>
      match stream_status r with
      | Some e => [generate_error e]
      | None =>
          let '(produced, result) := stream_loop (stream_lines r) [] in
          match result, stream_failure r with
          | inl e, _ => produced ++ [generate_error e]
          | inr _, Some e => produced ++ [generate_error e]
          | inr accumulated, None => produced ++ [accumulated]
          end
      end
  end.

Local Open Scope io_scope.

(** [ask_with_context_stream(question, top_k)] run to its end: the
    values produced, in order, and the exception that leaves the
    generator, if any. *)
Definition ask_with_context_stream (question : str) (top_k : Z)
  : io (list str * option exn) :=
  if negb (truthy (PyStr question)) || str_eqb (strip question) [] then
    io_ret ([enter_a_question], None)
  else
    r <- get_embedding question ;;
    match r with
    | inl e => io_ret ([lit "Error getting question embedding: " ++ exn_str e], None)
    | inr q_emb =>
        r <- collection_query q_emb top_k ;;
        match r with
        | inl e => io_ret ([lit "Error querying ChromaDB: " ++ exn_str e], None)
        | inr results =>
            match documents_of results with
            | inl e => io_ret ([], Some e)
            | inr docs =>
                match context_of docs with
                | inl e => io_ret ([], Some e)
                | inr context =>
                    reply <- post_generate (make_prompt context question) ;;
                    io_ret (stream_answer reply, None)
                end
            end
        end
    end.

End Stream.

(** ** Observations *)

(** The texts sent to the embedding service, in order. *)
Definition embed_calls (tr : list event) : list str :=
  omap (fun ev => match ev with EmbedCall text => Some text | _ => None end) tr.

(** The records handed to [collection.add], in order. *)
Definition add_calls (tr : list event) : list (str * entry) :=
  omap (fun ev => match ev with
                  | AddCall id doc emb => Some (id, Entry doc emb)
                  | _ => None
                  end) tr.

(** The events of a run that took the world from [w] to [w']. *)
Definition events_since (w w' : world) : list event :=
  drop (length (trace w)) (trace w').

(** A question made of whitespace only (the empty one included). *)
Definition whitespace_only (question : str) : bool := forallb isspace question.

Section Deltas.
Context {libs : Externals}.

(** The text one wire line adds to the answer: what the loop body
    produces for it from an empty accumulator. *)
Definition line_delta (line : bytes) : exn + option str :=
  match line with
  | [] => inr None
  | _ :: _ =>
      match handle_line line [] with
      | inl e => inl e
      | inr Continue => inr None
      | inr (Yield delta) => inr (Some delta)
      end
  end.

(** The successive non-empty deltas of a stream, when no line of it
    raises. *)
Fixpoint stream_deltas (lines : list bytes) : exn + list str :=
  match lines with
  | [] => inr []
  | line :: lines' =>
      match line_delta line with
      | inl e => inl e
      | inr d =>
          match stream_deltas lines' with
          | inl e => inl e
          | inr ds => inr (match d with Some delta => delta :: ds | None => ds end)
          end
      end
  end.
End Deltas.

(** The accumulator after each delta. *)
Fixpoint accumulations (accumulated : str) (deltas : list str) : list str :=
  match deltas with
  | [] => []
  | d :: deltas' => (accumulated ++ d) :: accumulations (accumulated ++ d) deltas'
  end.

(** The files and the services of two worlds are the same. *)
Definition same_services (w w' : world) : Prop :=
  data_dir w' = data_dir w /\ embed_api w' = embed_api w
  /\ query_api w' = query_api w /\ generate_api w' = generate_api w.

(** The text a choice contributes to a delta, in the words of the
    specification: the nested delta content when that is a non-empty text;
    otherwise, the content being absent, empty or any other false value,
    the text member when it is a text, and nothing when the text member is
    itself a false value.  The member [delta] is an object when present.
    An entry of the list that is not an object contributes nothing. *)
Inductive contributes : pyval -> str -> Prop :=
| contributes_content ch delta content :
    dict_get ch (lit "delta") (PyDict []) = PyDict delta ->
    dict_get delta (lit "content") (PyStr []) = PyStr content ->
    content <> [] ->
    contributes (PyDict ch) content
| contributes_text ch delta text :
    dict_get ch (lit "delta") (PyDict []) = PyDict delta ->
    truthy (dict_get delta (lit "content") (PyStr [])) = false ->
    dict_get ch (lit "text") (PyStr []) = PyStr text ->
    contributes (PyDict ch) text
| contributes_no_text ch delta :
    dict_get ch (lit "delta") (PyDict []) = PyDict delta ->
    truthy (dict_get delta (lit "content") (PyStr [])) = false ->
    truthy (dict_get ch (lit "text") (PyStr [])) = false ->
    contributes (PyDict ch) []
| contributes_nothing v :
    (forall ch, v <> PyDict ch) ->
    contributes v [].

(** A file whose text can be read. *)
Definition readable (f : file) : Prop := exists raw, read_text f = inr raw.

(** One file comes before another in the order of their paths. *)
Definition path_before `{Externals} (f g : file) : Prop :=
  path_lt (path f) (path g) = true.

(** The positions reported to the progress bar, in order. *)
Definition progress_calls (tr : list event) : list nat :=
  omap (fun ev => match ev with ProgressCall current _ => Some current | _ => None end) tr.

(** The prompts sent to the generation service, in order. *)
Definition generate_calls (tr : list event) : list str :=
  omap (fun ev => match ev with GenerateCall prompt => Some prompt | _ => None end) tr.

(** [json_part] as the loop body computes it from the decoded line. *)
Definition json_part_of (decoded : str) : str :=
  let text_line := strip decoded in
  if startswith text_line (lit "data:")
  then strip (slice_from text_line (length (lit "data:")))
  else text_line.

(** [b] is [a] followed by at least one character. *)
Definition grows (a b : str) : Prop := exists t, t <> [] /\ b = a ++ t.

(** The exceptions that taking the documents out of a query result and
    joining them can raise. *)
Definition shape_errors : list exn :=
  [AttributeError; IndexError; KeyError; TypeError].

(** ** Concrete libraries, corpora and services *)

(** The definitions of this part instantiate the parameters of the model
    so that its functions can be run: a byte-wise path order, a rendering
    of exceptions, a [json.loads] restricted to one payload shape, a small
    corpus, and a few behaviours of the services. *)

Definition quote : str := [34%N].

(** Lexicographic order of two strings by code point. *)
Fixpoint str_ltb (a b : str) : bool :=
  match a, b with
  | _, [] => false
  | [], _ :: _ => true
  | x :: a', y :: b' => (x <? y)%N || ((x =? y)%N && str_ltb a' b')
  end.

Definition sample_exn_str (e : exn) : str :=
  match e with
  | ValueError => lit "ValueError"
  | TypeError => lit "TypeError"
  | AttributeError => lit "AttributeError"
  | KeyError => lit "KeyError"
  | IndexError => lit "IndexError"
  | OverflowError => lit "OverflowError"
  | UnicodeDecodeError => lit "UnicodeDecodeError"
  | RecursionError => lit "RecursionError"
  | JSONDecodeError => lit "JSONDecodeError"
  | LibraryError text => text
  end.

Definition response_prefix : str :=
  lit "{" ++ quote ++ lit "response" ++ quote ++ lit ":" ++ quote.

Definition plain_char (c : N) : bool :=
  ((32 <=? c) && negb (c =? 34) && negb (c =? 92))%N.

(** Parses an object with the single member [response] whose value is a
    string without escapes and without spaces around the punctuation;
    every other text is reported as malformed. *)
Definition sample_json_loads (s : str) : exn + pyval :=
  if startswith s response_prefix then
    match rev (drop (length response_prefix) s) with
    | 125%N :: 34%N :: reversed =>
        if forallb plain_char reversed
        then inr (PyDict [(lit "response", PyStr (rev reversed))])
        else inl JSONDecodeError
    | _ => inl JSONDecodeError
    end
  else inl JSONDecodeError.

Definition sample_libs : Externals :=
  {| path_lt := str_ltb; exn_str := sample_exn_str; json_loads := sample_json_loads |}.

(** The wire line [{"response":"text"}]. *)
Definition response_line (text : string) : bytes :=
  ascii_bytes "{" ++ [Byte.x22] ++ ascii_bytes "response" ++ [Byte.x22]
  ++ ascii_bytes ":" ++ [Byte.x22] ++ ascii_bytes text ++ [Byte.x22]
  ++ ascii_bytes "}".

(** A stream with framing, a blank line, a malformed line and an end
    marker around three deltas. *)
Definition hello_lines : list bytes :=
  [ ascii_bytes "data: " ++ response_line "Hel";
    [];
    ascii_bytes "not json";
    response_line "lo";
    ascii_bytes "   ";
    response_line " world";
    ascii_bytes "data: [DONE]" ].

(** Five files of one chunk each, listed out of order. *)
Definition corpus : list file :=
  [ File (lit "c.txt") (inr (lit "gamma "));
    File (lit "a.txt") (inr (lit " alpha"));
    File (lit "e.txt") (inr (lit "epsilon"));
    File (lit "blank.txt") (inr (lit "   "));
    File (lit "b.txt") (inr (lit "beta"));
    File (lit "d.txt") (inr (lit "delta")) ].

(** A collection that already holds the first three chunks. *)
Definition stored : gmap str entry :=
  list_to_map
    [ (lit "0", Entry (lit "alpha") (PyList [PyInt 5]));
      (lit "1", Entry (lit "beta") (PyList [PyInt 4]));
      (lit "2", Entry (lit "gamma") (PyList [PyInt 5])) ].

(** An embedding service that answers with a one-component vector, and
    one that cannot be reached. *)
Definition embedding_reply (text : str) : exn + json_response :=
  inr (JsonResponse None
         (inr (PyDict [(lit "embedding", PyList [PyInt (Z.of_nat (length text))])]))).

Definition refused : exn := LibraryError (lit "connection refused").

Definition is_embed_call (ev : event) : bool :=
  match ev with EmbedCall _ => true | _ => false end.

(** The similarity search returns the two stored documents. *)
Definition query_reply : exn + pyval :=
  inr (PyDict [(lit "documents", PyList [PyList [PyStr (lit "alpha"); PyStr (lit "beta")]])]).

Definition server_error : exn := LibraryError (lit "500 Server Error").

(** All services up. *)
Definition world_up : world :=
  World corpus stored
        (fun _ text => embedding_reply text)
        (fun _ _ _ => query_reply)
        (fun _ _ => inr (StreamResponse None hello_lines None))
        [].

(** The embedding service is down. *)
Definition world_down : world :=
  World corpus stored
        (fun _ _ => inl refused)
        (fun _ _ _ => query_reply)
        (fun _ _ => inr (StreamResponse None hello_lines None))
        [].

(** The embedding service answers its first request and refuses the
    following ones. *)
Definition world_failing : world :=
  World corpus stored
        (fun hist text => if existsb is_embed_call hist then inl refused
                          else embedding_reply text)
        (fun _ _ _ => query_reply)
        (fun _ _ => inr (StreamResponse None hello_lines None))
        [].

(** The generation service answers with an HTTP error status. *)
Definition world_http_error : world :=
  World corpus stored
        (fun _ text => embedding_reply text)
        (fun _ _ _ => query_reply)
        (fun _ _ => inr (StreamResponse (Some server_error) [] None))
        [].

(** A payload with both a direct text and choices, and one with choices
    only. *)
Definition choice_with_content : pyval :=
  PyDict [(lit "delta", PyDict [(lit "content", PyStr (lit "Hel"))]);
          (lit "text", PyStr (lit "ignored"))].

Definition choice_with_text : pyval :=
  PyDict [(lit "delta", PyDict []); (lit "text", PyStr (lit "lo"))].

Definition payload_choices : list (str * pyval) :=
  [(lit "model", PyStr (lit "mistral:latest"));
   (lit "choices", PyList [choice_with_content; PyInt 7; choice_with_text])].

(** A payload whose only choice has a null [delta] beside its text. *)
Definition choice_null_delta : pyval :=
  PyDict [(lit "delta", PyNone); (lit "text", PyStr (lit "t"))].

Definition payload_null_delta : list (str * pyval) :=
  [(lit "choices", PyList [choice_null_delta])].

(** A choice whose delta content is null, and one without any text. *)
Definition choice_null_content : pyval :=
  PyDict [(lit "delta", PyDict [(lit "content", PyNone)]);
          (lit "text", PyStr (lit "lo"))].

Definition choice_without_text : pyval :=
  PyDict [(lit "delta", PyDict []); (lit "text", PyNone)].

Definition payload_mixed : list (str * pyval) :=
  [(lit "response", PyStr []);
   (lit "choices", PyList [choice_with_content; PyInt 7; choice_null_content;
                           choice_without_text])].

(** The first and the second of two successive builds from a world. *)
Definition first_build (w : world) : (exn + str) * world :=
  build_index (libs:=sample_libs) w.

Definition second_build (w : world) : (exn + str) * world :=
  build_index (libs:=sample_libs) (first_build w).2.

(** The events of a query up to the POST to the generation service, and
    the prompt it sends. *)
Definition asked : list event :=
  [ EmbedCall (lit "What?"); QueryCall (PyList [PyInt 5]) 3 ].

Definition asked_prompt : str :=
  make_prompt (lit "alpha" ++ newline ++ newline ++ lit "beta") (lit "What?").

(** The question asked while the generation service answers with an error
    status. *)
Definition sample_ask : (list str * option exn) * world :=
  ask_with_context_stream (libs:=sample_libs) (lit "What?") 3 world_http_error.

(** The wire line [{"response":5}], and a [json.loads] that parses it as
    well. *)
Definition number_text : str :=
  lit "{" ++ quote ++ lit "response" ++ quote ++ lit ":5}".

Definition number_line : bytes :=
  ascii_bytes "{" ++ [Byte.x22] ++ ascii_bytes "response" ++ [Byte.x22]
  ++ ascii_bytes ":5}".

Definition number_json_loads (s : str) : exn + pyval :=
  if str_eqb s number_text then inr (PyDict [(lit "response", PyInt 5)])
  else sample_json_loads s.

Definition number_libs : Externals :=
  {| path_lt := str_ltb; exn_str := sample_exn_str; json_loads := number_json_loads |}.

(** What [iter_lines] raises when the connection stalls after the last
    line. *)
Definition timed_out : exn := LibraryError (lit "Read timed out").

(** A directory whose files hold no text. *)
Definition world_blank : world :=
  World [ File (lit "blank.txt") (inr (lit "   "));
          File (lit "empty.txt") (inr []) ]
        stored
        (fun _ text => embedding_reply text)
        (fun _ _ _ => query_reply)
        (fun _ _ => inr (StreamResponse None hello_lines None))
        [].

(** The similarity search answers with an empty list of result lists. *)
Definition world_no_results : world :=
  World corpus stored
        (fun _ text => embedding_reply text)
        (fun _ _ _ => inr (PyDict [(lit "documents", PyList [])]))
        (fun _ _ => inr (StreamResponse None hello_lines None))
        [].

(** The question asked with every service up, and with a search that
    answers with no result list. *)
Definition ask_up : (list str * option exn) * world :=
  ask_with_context_stream (libs:=sample_libs) (lit "What?") 3 world_up.

Definition ask_no_results : (list str * option exn) * world :=
  ask_with_context_stream (libs:=sample_libs) (lit "What?") 3 world_no_results.

(** * Properties *)

(** ** Chunking *)

Section ChunkerFacts.
Context {libs : Externals}.

Lemma range_from_lookup fuel start stop step k i :
  range_from fuel start stop step !! k = Some i ->
  i = start + k * step /\ i < stop.
Proof.
  revert start k. induction fuel as [|fuel IH]; intros start k; simpl; [done|].
  destruct (Nat.ltb_spec start stop) as [Hlt|Hge]; [|done].
  destruct k as [|k]; simpl.
  - intros [= <-]. lia.
  - intros Hk. apply IH in Hk. lia.
Qed.

Lemma range_from_length fuel start stop step :
  0 < step -> stop - start <= fuel ->
  length (range_from fuel start stop step) = (stop - start + step - 1) / step.
Proof.
  intros Hstep. revert start. induction fuel as [|fuel IH]; intros start Hfuel; simpl.
  - replace (stop - start) with 0 by lia. symmetry. apply Nat.div_small. lia.
  - destruct (Nat.ltb_spec start stop) as [Hlt|Hge]; simpl.
    + rewrite IH by lia.
      destruct (Nat.le_gt_cases step (stop - start)) as [Hle|Hgt].
      * replace (stop - start + step - 1) with ((stop - (start + step) + step - 1) + 1 * step) by lia.
        rewrite Nat.div_add by lia. lia.
      * replace (stop - (start + step)) with 0 by lia.
        rewrite (Nat.div_small (0 + step - 1)) by lia.
        simpl. apply (Nat.div_unique _ _ 1 (stop - start - 1)); lia.
    + replace (stop - start) with 0 by lia. symmetry. apply Nat.div_small. lia.
Qed.

Lemma concat_slices (text : str) size fuel start :
  0 < size -> length text - start <= fuel ->
  concat (map (fun i => slice text i (i + size)) (range_from fuel start (length text) size))
  = drop start text.
Proof.
  intros Hsize. revert start. induction fuel as [|fuel IH]; intros start Hfuel; simpl.
  - symmetry. apply drop_ge. lia.
  - destruct (Nat.ltb_spec start (length text)) as [Hlt|Hge]; simpl.
    + rewrite IH by lia. unfold slice.
      replace (start + size - start) with size by lia.
      rewrite <- (take_drop size (drop start text)) at 2.
      by rewrite drop_drop.
    + symmetry. apply drop_ge. lia.
Qed.

Lemma length_slice (text : str) i j :
  length (slice text i j) = (j - i) `min` (length text - i).
Proof. unfold slice. by rewrite length_take, length_drop. Qed.

Lemma file_chunks_pos (text : str) (p : positive) :
  file_chunks text (Z.pos p)
  = inr (map (fun i => slice text i (i + Pos.to_nat p))
             (range 0 (length text) (Pos.to_nat p))).
Proof. reflexivity. Qed.

Lemma file_chunks_lookup (text : str) (S : Z) chunks k c :
  (0 < S)%Z -> file_chunks text S = inr chunks -> chunks !! k = Some c ->
  c = slice text (k * Z.to_nat S) (k * Z.to_nat S + Z.to_nat S)
  /\ k * Z.to_nat S < length text.
Proof.
  destruct S as [|p|p]; try lia. intros _. rewrite file_chunks_pos.
  intros [= <-]. rewrite list_lookup_fmap.
  destruct (range _ _ _ !! k) as [i|] eqn:Hi; simpl; [|done].
  intros [= <-]. apply range_from_lookup in Hi.
  rewrite Z2Nat.inj_pos. destruct Hi as [-> Hi]. simpl in *. done.
Qed.

Lemma insert_file_elem f g l : g ∈ insert_file f l <-> g = f \/ g ∈ l.
Proof.
  induction l as [|a l IH]; simpl.
  - rewrite !elem_of_cons. tauto.
  - destruct (path_lt (path a) (path f)); rewrite !elem_of_cons, ?IH; tauto.
Qed.

Lemma sorted_elem f l : f ∈ sorted l <-> f ∈ l.
Proof.
  unfold sorted. induction l as [|a l IH]; simpl; [done|].
  rewrite insert_file_elem, elem_of_cons, IH. tauto.
Qed.

Lemma load_loop_nonempty files (S : Z) acc :
  (0 < S)%Z -> Forall (fun c : str => c <> []) acc ->
  match load_loop files S acc with
  | inr chunks => Forall (fun c : str => c <> []) chunks
  | inl e => exists f, f ∈ files /\ read_text f = inl e
  end.
Proof.
  intros HS. revert acc. induction files as [|f files IH]; intros acc Hacc; simpl; [done|].
  destruct (read_text f) as [e|raw] eqn:Hread.
  { exists f. split; [apply list_elem_of_here|done]. }
  assert (Hnext : forall acc', Forall (fun c : str => c <> []) acc' ->
    match load_loop files S acc' with
    | inr chunks => Forall (fun c : str => c <> []) chunks
    | inl e => exists f0, f0 ∈ f :: files /\ read_text f0 = inl e
    end).
  { intros acc' Hacc'. specialize (IH acc' Hacc').
    destruct (load_loop files S acc'); [|done].
    destruct IH as (f0 & ? & ?). exists f0. split; [by apply list_elem_of_further|done]. }
  destruct (negb _); [by apply Hnext|].
  destruct (file_chunks (strip raw) S) as [e|fc] eqn:Hfc.
  { destruct S; try lia; discriminate. }
  apply Hnext. apply Forall_app. split; [done|].
  apply Forall_lookup. intros k c Hk.
  destruct (file_chunks_lookup _ _ _ _ _ HS Hfc Hk) as [-> Hlt].
  intros Hnil. apply (f_equal length) in Hnil.
  rewrite length_slice in Hnil. simpl in Hnil. lia.
Qed.

(** C10.  No chunk is empty.  For every document directory and every
    chunk size [S > 0], [load_all_chunks] either returns a list all of
    whose strings are non-empty (a file that is empty once stripped
    contributes no chunk, and no slice taken from a non-empty text is
    empty), or it raises the exception that reading one of the files
    raised. *)
Theorem load_all_chunks_nonempty (data_dir : list file) (S : Z) :
  (0 < S)%Z ->
  match load_all_chunks data_dir S with
  | inr chunks => Forall (fun c : str => c <> []) chunks
  | inl e => exists f, f ∈ data_dir /\ read_text f = inl e
  end.
Proof.
  intros HS. unfold load_all_chunks.
  pose proof (load_loop_nonempty (sorted data_dir) S [] HS (Forall_nil_2 _)) as Hl.
  destruct (load_loop _ _ _); [|done].
  destruct Hl as (f & Hf & ?). exists f. by rewrite <- sorted_elem.
Qed.

(** C4.  The chunks partition the stripped text.  For every file content
    [raw] and every chunk size [S > 0], let [T] be [raw] stripped of leading
    and trailing whitespace.  On a directory holding that one file,
    [load_all_chunks] returns a list of chunks such that
    - their concatenation is [T];
    - the chunk of index [k] is the slice [T[k*S : k*S + S]], so the
      chunks are contiguous, do not overlap and keep the original order,
      and none is longer than [S];
    - every chunk but the last has exactly [S] characters;
    - their number is [ceil(len(T) / S)], written [(len(T) + S - 1) / S]
      with the truncating division of natural numbers. *)
Theorem chunks_partition_text (name raw : str) (S : Z) :
  (0 < S)%Z ->
  let T := strip raw in
  let size := Z.to_nat S in
  exists chunks,
    load_all_chunks [File name (inr raw)] S = inr chunks
    /\ concat chunks = T
    /\ (forall k c, chunks !! k = Some c ->
          c = slice T (k * size) (k * size + size) /\ length c <= size)
    /\ (forall k c, chunks !! k = Some c -> k + 1 < length chunks ->
          length c = size)
    /\ length chunks = (length T + size - 1) / size.
Proof.
  intros HS T size. unfold load_all_chunks. simpl. fold T.
  destruct (bool_decide (T = [])) eqn:Hb; simpl.
  { apply bool_decide_eq_true in Hb. rewrite Hb. exists []. simpl.
    repeat split; try done. symmetry. apply Nat.div_small. lia. }
  clear Hb.
  destruct S as [|p|p]; try lia. rewrite file_chunks_pos.
  eexists. split; [reflexivity|].
  assert (Hsz : size = Pos.to_nat p) by (unfold size; apply Z2Nat.inj_pos).
  rewrite <- Hsz. assert (Hpos : 0 < size) by lia.
  assert (Hlen : length (map (fun i => slice T i (i + size)) (range 0 (length T) size))
                 = (length T + size - 1) / size).
  { rewrite length_map. unfold range. rewrite range_from_length by lia.
    by rewrite Nat.sub_0_r. }
  assert (Hk : forall k c, map (fun i => slice T i (i + size)) (range 0 (length T) size) !! k = Some c ->
            c = slice T (k * size) (k * size + size) /\ k * size < length T).
  { intros k c. rewrite list_lookup_fmap.
    destruct (range _ _ _ !! k) as [i|] eqn:Hi; simpl; [|done].
    intros [= <-]. apply range_from_lookup in Hi. destruct Hi as [-> Hi]. done. }
  split; [|split; [|split]].
  - unfold range. rewrite concat_slices by lia. apply drop_0.
  - intros k c Hc. destruct (Hk _ _ Hc) as [-> _]. split; [done|].
    rewrite length_slice. lia.
  - intros k c Hc Hlast. destruct (Hk _ _ Hc) as [-> Hlt].
    rewrite length_slice.
    assert (is_Some (map (fun i => slice T i (i + size))
                         (range 0 (length T) size) !! (k + 1))) as [c' Hc'].
    { apply lookup_lt_is_Some. lia. }
    apply Hk in Hc' as [_ Hlt']. lia.
  - exact Hlen.
Qed.
End ChunkerFacts.

(** ** Streamed answers *)

Section StreamFacts.
Context {libs : Externals}.

Lemma line_body_accumulates line acc :
  line_body line acc =
  match line_body line [] with
  | inl e => inl e
  | inr Continue => inr Continue
  | inr (Yield delta) => inr (Yield (acc ++ delta))
  end.
Proof.
  unfold line_body. destruct (decode line) as [e|decoded]; [done|].
  cbv zeta. destruct (_ || _); [done|].
  destruct (json_loads _) as [e|payload]; [done|].
  destruct (extract_chunk_text payload) as [e|chunk_text]; [done|].
  destruct (truthy chunk_text); [|done].
  destruct chunk_text; simpl; done.
Qed.

Lemma handle_line_accumulates line acc :
  handle_line line acc =
  match handle_line line [] with
  | inl e => inl e
  | inr Continue => inr Continue
  | inr (Yield delta) => inr (Yield (acc ++ delta))
  end.
Proof.
  unfold handle_line. rewrite (line_body_accumulates line acc).
  destruct (line_body line []) as [e|[|delta]]; try done.
  by destruct (is_JSONDecodeError e).
Qed.

Lemma stream_loop_deltas lines acc deltas :
  stream_deltas lines = inr deltas ->
  stream_loop lines acc = (accumulations acc deltas, inr (acc ++ concat deltas)).
Proof.
  revert acc deltas. induction lines as [|line lines IH]; intros acc deltas; simpl.
  - intros [= <-]. simpl. by rewrite app_nil_r.
  - destruct line as [|b line]; simpl.
    + destruct (stream_deltas lines) as [e|ds]; [done|]. intros [= <-]. by apply IH.
    + rewrite (handle_line_accumulates (b :: line) acc).
      destruct (handle_line (b :: line) []) as [e|[|delta]]; [done| |];
        destruct (stream_deltas lines) as [e|ds]; try done; intros [= <-].
      * by apply IH.
      * rewrite (IH (acc ++ delta) ds eq_refl). simpl. by rewrite app_assoc.
Qed.

(** C1.  Streaming accumulation.  For every sequence of wire lines whose
    successive non-empty deltas are ["Hel"], ["lo"] and [" world"], the
    values produced while the lines of the stream are consumed are exactly
    ["Hel"], ["Hello"], ["Hello world"]: each one is the whole accumulator,
    not the delta, and the loop leaves the accumulator ["Hello world"].
    When the stream has then ended without a failure, the generator
    produces that accumulator once more, so that the complete output of
    the streaming part is the three values followed by ["Hello world"]. *)
Theorem streaming_accumulation (lines : list bytes) :
  stream_deltas lines = inr [lit "Hel"; lit "lo"; lit " world"] ->
  stream_loop lines []
    = ([lit "Hel"; lit "Hello"; lit "Hello world"], inr (lit "Hello world"))
  /\ stream_answer (inr (StreamResponse None lines None))
    = [lit "Hel"; lit "Hello"; lit "Hello world"; lit "Hello world"].
Proof.
  intros Hd. pose proof (stream_loop_deltas lines [] _ Hd) as Hl.
  split; [exact Hl|]. unfold stream_answer. simpl. by rewrite Hl.
Qed.

(** A response with an error status gives the error message and nothing
    else. *)
Lemma error_status_single_value (r : stream_response) (e : exn) :
  stream_status r = Some e -> stream_answer (inr r) = [generate_error e].
Proof. intros Hs. unfold stream_answer. by rewrite Hs. Qed.

Lemma lstrip_whitespace question :
  whitespace_only question = true -> lstrip question = [].
Proof.
  induction question as [|c q IH]; simpl; [done|].
  intros [Hc Hq]%andb_prop. rewrite Hc. by apply IH.
Qed.


(** A line that decodes but is not JSON is skipped by the inner handler. *)
Lemma unparseable_json_skipped line decoded acc :
  decode line = inr decoded ->
  (let text_line := strip decoded in
   json_loads (if startswith text_line (lit "data:")
               then strip (slice_from text_line (length (lit "data:")))
               else text_line)) = inl JSONDecodeError ->
  handle_line line acc = inr Continue.
Proof.
  intros Hdec Hjson. unfold handle_line, line_body. rewrite Hdec. cbv zeta in *.
  destruct (_ || _); [done|]. by rewrite Hjson.
Qed.

Lemma stream_loop_app before after acc :
  stream_loop (before ++ after) acc =
  match stream_loop before acc with
  | (produced, inl e) => (produced, inl e)
  | (produced, inr acc') =>
      let '(produced', result) := stream_loop after acc' in
      (produced ++ produced', result)
  end.
Proof.
  revert acc. induction before as [|line before IH]; intros acc; simpl.
  - by destruct (stream_loop after acc).
  - destruct line as [|b line]; [apply IH|].
    destruct (handle_line (b :: line) acc) as [e|[|acc1]]; [done|apply IH|].
    rewrite IH. destruct (stream_loop before acc1) as [produced [e|acc2]]; [done|].
    by destruct (stream_loop after acc2).
Qed.


Lemma ask_unfold question top_k w :
  ask_with_context_stream question top_k w =
  if negb (truthy (PyStr question)) || str_eqb (strip question) []
  then (([enter_a_question], None), w)
  else
    let w1 := record_event (EmbedCall question) w in
    match embedding_of (embed_api w (trace w) question) with
    | inl e => (([lit "Error getting question embedding: " ++ exn_str e], None), w1)
    | inr q_emb =>
        let w2 := record_event (QueryCall q_emb top_k) w1 in
        match query_api w (trace w1) q_emb top_k with
        | inl e => (([lit "Error querying ChromaDB: " ++ exn_str e], None), w2)
        | inr results =>
            match documents_of results with
            | inl e => (([], Some e), w2)
            | inr docs =>
                match context_of docs with
                | inl e => (([], Some e), w2)
                | inr context =>
                    let prompt := make_prompt context question in
                    ((stream_answer (generate_api w (trace w2) prompt), None),
                     record_event (GenerateCall prompt) w2)
                end
            end
        end
    end.
Proof.
  unfold ask_with_context_stream. destruct (_ || _); [done|].
  unfold io_bind, get_embedding. destruct (embedding_of _) as [e|q_emb]; [done|].
  unfold collection_query. simpl. destruct (query_api _ _ _ _) as [e|results]; [done|].
  destruct (documents_of results) as [e|docs]; [done|].
  destruct (context_of docs) as [e|context]; done.
Qed.

(** C7.  Error status of the generation service.  If a run of
    [ask_with_context_stream] ends with the POST to the generation service
    and the response to it has an error status, for which
    [raise_for_status] raises [e], then the run produces exactly one value,
    the text [Error calling Ollama generate API: ] followed by [str(e)],
    and ends: nothing was produced before the POST, no accumulator follows
    the message, and no exception leaves the generator. *)
Theorem generation_http_error (question : str) (top_k : Z) (w w' : world)
    (produced : list str) (raised : option exn)
    (hist : list event) (prompt : str) (r : stream_response) (e : exn) :
  ask_with_context_stream question top_k w = ((produced, raised), w') ->
  trace w' = hist ++ [GenerateCall prompt] ->
  length (trace w) <= length hist ->
  generate_api w hist prompt = inr r ->
  stream_status r = Some e ->
  produced = [lit "Error calling Ollama generate API: " ++ exn_str e]
  /\ raised = None.
Proof.
  rewrite ask_unfold. intros Hrun Ht Hlen Hreply Hstatus.
  destruct (_ || _).
  { injection Hrun as <- <- <-. rewrite Ht, length_app in Hlen. simpl in Hlen. lia. }
  cbv zeta in Hrun.
  destruct (embedding_of _) as [e1|q_emb].
  { injection Hrun as <- <- <-. simpl in Ht. by apply app_inj_tail in Ht as [_ ?]. }
  destruct (query_api _ _ _ _) as [e1|results].
  { injection Hrun as <- <- <-. simpl in Ht. by apply app_inj_tail in Ht as [_ ?]. }
  destruct (documents_of results) as [e1|docs].
  { injection Hrun as <- <- <-. simpl in Ht. by apply app_inj_tail in Ht as [_ ?]. }
  destruct (context_of docs) as [e1|context].
  { injection Hrun as <- <- <-. simpl in Ht. by apply app_inj_tail in Ht as [_ ?]. }
  injection Hrun as <- <- <-. simpl in Ht.
  apply app_inj_tail in Ht as [<- [= <-]].
  simpl. rewrite Hreply. split; [|done]. by apply error_status_single_value.
Qed.

Lemma choices_loop_contributes choices pieces (acc : str) :
  Forall2 contributes choices pieces ->
  choices_loop choices (PyStr acc) = inr (PyStr (acc ++ concat pieces)).
Proof.
  intros Hc. revert acc.
  induction Hc as [|ch piece choices pieces Hch _ IH]; intros acc; simpl.
  - by rewrite app_nil_r.
  - destruct Hch as [ch delta content Hd Hcontent Hne|ch delta text Hd Hcontent Htext
                    |ch delta Hd Hcontent Htext|v Hv].
    + unfold choice_text. rewrite Hd, Hcontent. unfold py_or. simpl.
      rewrite bool_decide_eq_false_2 by done. simpl.
      rewrite bool_decide_eq_false_2 by done. simpl.
      by rewrite IH, app_assoc.
    + unfold choice_text. rewrite Hd. unfold py_or. rewrite Hcontent, Htext. simpl.
      destruct (bool_decide (text = [])) eqn:Ht; simpl.
      * apply bool_decide_eq_true in Ht as ->. by rewrite IH, !app_nil_r.
      * by rewrite IH, app_assoc.
    + unfold choice_text. rewrite Hd. unfold py_or. rewrite Hcontent, Htext. simpl.
      by rewrite IH, !app_nil_r.
    + destruct v; try apply IH. by destruct (Hv d).
Qed.

(** C9, amended.  Which text a payload contributes.  Let the payload be an
    object and [response] the value of its member of that name (the empty
    text when the member is absent).  If [response] is a true value, of
    whatever type, the extracted delta is [response] and the payload's
    [choices] are not looked at.  If it is the empty text and [choices] is
    a list each of whose entries contributes a text in the sense of
    [contributes] (its [delta], when present, is an object), the extracted
    delta is the concatenation of the contributions: for each choice its
    nested delta content when that is a non-empty text, and its text member
    otherwise. *)
Theorem delta_extraction (d : list (str * pyval)) (response : pyval)
    (choices : list pyval) (pieces : list str) :
  dict_get d (lit "response") (PyStr []) = response ->
  (truthy response = false ->
     response = PyStr []
     /\ dict_lookup d (lit "choices") = Some (PyList choices)
     /\ Forall2 contributes choices pieces) ->
  extract_chunk_text (PyDict d)
  = inr (if truthy response then response else PyStr (concat pieces)).
Proof.
  intros Hresponse Hchoices. unfold extract_chunk_text. rewrite Hresponse.
  destruct (truthy response) eqn:Htrue; [done|].
  destruct (Hchoices eq_refl) as (-> & Hl & Hc).
  unfold dict_contains. rewrite Hl. cbn [negb andb].
  destruct Hc as [|ch piece choices pieces Hch Hc]; [done|].
  assert (Hall : Forall2 contributes (ch :: choices) (piece :: pieces))
    by (by constructor).
  by rewrite (choices_loop_contributes _ _ [] Hall).
Qed.
End StreamFacts.

(** ** Incremental indexing *)

Section IndexerFacts.
Context {libs : Externals}.

Lemma events_since_app w w' tr :
  trace w' = trace w ++ tr -> events_since w w' = tr.
Proof. intros Ht. unfold events_since. rewrite Ht. apply drop_app_length. Qed.

Lemma same_services_refl w : same_services w w.
Proof. by repeat split. Qed.

Lemma record_events_nil w : record_events [] w = w.
Proof. destruct w. unfold record_events. simpl. by rewrite app_nil_r. Qed.

Lemma record_event_one ev w : record_event ev w = record_events [ev] w.
Proof. reflexivity. Qed.

Lemma record_events_events tr1 tr2 w :
  record_events tr2 (record_events tr1 w) = record_events (tr1 ++ tr2) w.
Proof. unfold record_events. simpl. by rewrite app_assoc. Qed.

Lemma fetch_existing_ids_run w :
  exists tr,
    fetch_existing_ids w = (dom (collection w), record_events tr w)
    /\ (tr = [CountCall]
        \/ tr = [CountCall; CountCall; GetCall (size (collection w))]).
Proof.
  unfold fetch_existing_ids, io_bind, collection_count, collection_get_ids, io_ret.
  simpl. destruct (Nat.ltb_spec 0 (size (collection w))) as [Hpos|Hzero].
  - exists [CountCall; CountCall; GetCall (size (collection w))]. split; [|by right].
    f_equal.
    + rewrite take_ge by (by rewrite length_fmap, length_map_to_list).
      symmetry. apply leibniz_equiv, dom_alt.
    + unfold record_event, record_events. simpl. by rewrite <- !app_assoc.
  - exists [CountCall]. split; [|by left]. f_equal.
    assert (collection w = ∅) as -> by (apply map_size_empty_inv; lia).
    by rewrite dom_empty_L.
Qed.

Lemma embed_calls_app tr1 tr2 :
  embed_calls (tr1 ++ tr2) = embed_calls tr1 ++ embed_calls tr2.
Proof. apply omap_app. Qed.

Lemma add_calls_app tr1 tr2 :
  add_calls (tr1 ++ tr2) = add_calls tr1 ++ add_calls tr2.
Proof. apply omap_app. Qed.

Lemma events_since_refl w : events_since w w = [].
Proof. apply events_since_app. by rewrite app_nil_r. Qed.

(** How a build ends: with the exception of [read_text], with the message
    that there are no documents, or with the exception of the [with]
    statement, once the ids have been fetched. *)
Lemma build_index_unfold w :
  build_index w =
  match load_all_chunks (data_dir w) CHUNK_SIZE with
  | inl e => (inl e, w)
  | inr all_chunks =>
      if length all_chunks =? 0 then (inr no_documents, w)
      else (inl TypeError, (fetch_existing_ids w).2)
  end.
Proof.
  unfold build_index. destruct (load_all_chunks _ _) as [e|all_chunks]; [done|].
  destruct (_ =? 0); [done|]. unfold io_bind. simpl.
  by destruct (fetch_existing_ids w).
Qed.

Lemma build_index_run w r w' :
  build_index w = (r, w') ->
  exists tr,
    w' = record_events tr w
    /\ (tr = [] \/ tr = [CountCall]
        \/ tr = [CountCall; CountCall; GetCall (size (collection w))]).
Proof.
  rewrite build_index_unfold.
  destruct (load_all_chunks _ _) as [e|all_chunks].
  { intros [= <- <-]. exists []. rewrite record_events_nil. by split; [|left]. }
  destruct (_ =? 0).
  { intros [= <- <-]. exists []. rewrite record_events_nil. by split; [|left]. }
  destruct (fetch_existing_ids_run w) as (tr & -> & Htr). intros [= <- <-].
  exists tr. split; [done|]. by right.
Qed.

(** C2.  Rebuilding embeds nothing.  A second run of [build_index],
    started from the world the first run left (the same files, the same
    chunk size, the collection as the first run left it), sends nothing to
    the embedding service and leaves the number of stored records as the
    first run left it; it also ends as the first run ended.  This holds for
    every world and every outcome of the first run. *)
Theorem rebuild_embeds_nothing (w w1 w2 : world) (r1 r2 : exn + str) :
  build_index w = (r1, w1) ->
  build_index w1 = (r2, w2) ->
  embed_calls (events_since w1 w2) = []
  /\ size (collection w2) = size (collection w1)
  /\ r2 = r1.
Proof.
  intros Hfirst Hsecond.
  destruct (build_index_run _ _ _ Hsecond) as (tr & -> & Htr).
  assert (Hdir : data_dir w1 = data_dir w).
  { destruct (build_index_run _ _ _ Hfirst) as (tr1 & -> & _). done. }
  rewrite build_index_unfold in Hfirst, Hsecond. rewrite Hdir in Hsecond.
  rewrite (events_since_app w1 _ tr) by done.
  split; [by destruct Htr as [->|[->| ->]]|]. split; [done|].
  destruct (load_all_chunks _ _) as [e|all_chunks]; [congruence|].
  destruct (_ =? 0); congruence.
Qed.
End IndexerFacts.

(** ** More on chunking *)

Section ChunkerMore.
Context {libs : Externals}.

(** The chunks gathered before the loop starts are kept in front. *)
Lemma load_loop_acc files (S : Z) acc :
  load_loop files S acc =
  match load_loop files S [] with
  | inl e => inl e
  | inr chunks => inr (acc ++ chunks)
  end.
Proof.
  revert acc. induction files as [|f files IH]; intros acc; simpl.
  - by rewrite app_nil_r.
  - destruct (read_text f) as [e|raw]; [done|].
    destruct (negb _); [apply IH|].
    destruct (file_chunks (strip raw) S) as [e|fc]; [done|].
    rewrite (IH (acc ++ fc)), (IH fc).
    destruct (load_loop files S []); [done|]. simpl. by rewrite app_assoc.
Qed.

Lemma load_loop_one f (S : Z) :
  load_all_chunks [f] S = load_loop [f] S [].
Proof. reflexivity. Qed.

Lemma load_loop_cons f files (S : Z) :
  load_loop (f :: files) S [] =
  match load_loop [f] S [], load_loop files S [] with
  | inl e, _ => inl e
  | inr c, inl e => inl e
  | inr c, inr cs => inr (c ++ cs)
  end.
Proof.
  simpl. destruct (read_text f) as [e|raw]; [done|].
  destruct (negb _).
  { by destruct (load_loop files S []). }
  destruct (file_chunks (strip raw) S) as [e|fc]; [done|].
  simpl. rewrite (load_loop_acc files S fc).
  by destruct (load_loop files S []).
Qed.

Lemma load_loop_readable_pos f (S : Z) :
  (0 < S)%Z -> readable f -> exists c, load_loop [f] S [] = inr c.
Proof.
  intros HS [raw Hraw]. simpl. rewrite Hraw.
  destruct (negb _); [by eexists|].
  destruct S; try lia. simpl. by eexists.
Qed.

(** X1.  The chunks of a directory are the chunks of its files, file by
    file in the order of the sorted listing.  For every size [S > 0] and
    every directory whose files can all be read, [load_all_chunks] returns
    the concatenation of what it returns for each file alone, the files
    taken in sorted order: no chunk spans two files, and a file without
    text contributes the empty list. *)
Theorem chunks_of_directory (data_dir : list file) (S : Z) :
  (0 < S)%Z ->
  Forall readable data_dir ->
  exists per_file,
    Forall2 (fun f c => load_all_chunks [f] S = inr c) (sorted data_dir) per_file
    /\ load_all_chunks data_dir S = inr (concat per_file).
Proof.
  intros HS Hread. unfold load_all_chunks at 2.
  assert (Hs : Forall readable (sorted data_dir)).
  { apply Forall_forall. intros f Hf. rewrite Forall_forall in Hread.
    apply Hread. by apply sorted_elem. }
  induction Hs as [|f files Hf Hfiles IH].
  - exists []. by split.
  - destruct IH as (per & Hper & Hload).
    destruct (load_loop_readable_pos f S HS Hf) as [c Hc].
    exists (c :: per). split.
    + constructor; [by rewrite load_loop_one|done].
    + rewrite load_loop_cons, Hc, Hload. done.
Qed.

(** Sorting permutes the listing and, for a strict total order on distinct
    paths, leaves it increasing. *)
Lemma insert_file_perm f l : insert_file f l ≡ₚ f :: l.
Proof.
  induction l as [|g l IH]; simpl; [done|].
  destruct (path_lt (path g) (path f)); [|done].
  rewrite IH. apply Permutation_swap.
Qed.

Lemma sorted_perm l : sorted l ≡ₚ l.
Proof.
  unfold sorted. induction l as [|f l IH]; simpl; [done|].
  by rewrite insert_file_perm, IH.
Qed.

Section Ordered.
Hypothesis lt_trans : forall a b c,
  path_lt a b = true -> path_lt b c = true -> path_lt a c = true.
Hypothesis lt_total : forall a b,
  a <> b -> path_lt a b = true \/ path_lt b a = true.

Lemma insert_file_sorted f l :
  (forall g, g ∈ l -> path g <> path f) ->
  StronglySorted path_before l -> StronglySorted path_before (insert_file f l).
Proof.
  intros Hne Hl. induction Hl as [|g l Hl IH Hg]; simpl.
  - repeat constructor.
  - destruct (path_lt (path g) (path f)) eqn:Hgf.
    + constructor.
      * apply IH. intros x Hx. apply Hne. by apply list_elem_of_further.
      * apply Forall_forall. intros x Hx.
        apply insert_file_elem in Hx as [->|Hx]; [exact Hgf|].
        rewrite Forall_forall in Hg. by apply Hg.
    + assert (Hfg : path_before f g).
      { destruct (lt_total (path g) (path f)) as [Hlt|Hlt]; [|congruence|exact Hlt].
        apply Hne, list_elem_of_here. }
      constructor; [by constructor|].
      constructor; [exact Hfg|].
      apply Forall_forall. intros x Hx. rewrite Forall_forall in Hg.
      apply (lt_trans _ (path g)); [exact Hfg|by apply Hg].
Qed.

Lemma sorted_sorted l :
  NoDup (map path l) -> StronglySorted path_before (sorted l).
Proof.
  unfold sorted. induction l as [|f l IH]; simpl; intros Hnd.
  - constructor.
  - apply NoDup_cons in Hnd as [Hf Hnd]. apply insert_file_sorted; [|by apply IH].
    intros g Hg Heq. apply Hf. rewrite <- Heq.
    apply list_elem_of_fmap. exists g. split; [done|].
    apply sorted_elem. exact Hg.
Qed.
End Ordered.

(** X2.  The order in which the directory is listed does not matter.  When
    the order of paths is a strict total order and no path occurs twice,
    two listings of the same files give the same result of
    [load_all_chunks], the same chunks in the same order or the same
    exception, for every chunk size. *)
Theorem listing_order_irrelevant (dir1 dir2 : list file) (S : Z) :
  (forall a, path_lt a a = false) ->
  (forall a b c, path_lt a b = true -> path_lt b c = true -> path_lt a c = true) ->
  (forall a b, a <> b -> path_lt a b = true \/ path_lt b a = true) ->
  NoDup (map path dir1) ->
  dir1 ≡ₚ dir2 ->
  load_all_chunks dir1 S = load_all_chunks dir2 S.
Proof.
  intros Hirr Htrans Htotal Hnd Hperm. unfold load_all_chunks.
  assert (Hnd2 : NoDup (map path dir2)) by (by rewrite <- Hperm).
  f_equal. apply (StronglySorted_unique_strong path_before).
  - intros f g _ _ Hfg Hgf. unfold path_before in *.
    pose proof (Htrans _ _ _ Hfg Hgf) as Hff. by rewrite Hirr in Hff.
  - by apply sorted_sorted.
  - by apply sorted_sorted.
  - by rewrite !sorted_perm.
Qed.

Lemma load_loop_blank files (S : Z) :
  (forall f, f ∈ files -> exists raw, read_text f = inr raw /\ strip raw = []) ->
  load_loop files S [] = inr [].
Proof.
  induction files as [|f files IH]; intros Hall; simpl; [done|].
  destruct (Hall f (list_elem_of_here _ _)) as (raw & -> & ->). simpl.
  apply IH. intros g Hg. apply Hall. by apply list_elem_of_further.
Qed.

(** X3.  A negative chunk size loses the whole corpus without an error.
    [range(0, len(text), chunk_size)] is empty for a negative step, so when
    every file can be read [load_all_chunks] returns the empty list,
    whatever the files hold. *)
Theorem negative_size_drops_everything (data_dir : list file) (S : Z) :
  (S < 0)%Z ->
  Forall readable data_dir ->
  load_all_chunks data_dir S = inr [].
Proof.
  intros HS Hread. unfold load_all_chunks.
  assert (Hs : Forall readable (sorted data_dir)).
  { apply Forall_forall. intros f Hf. rewrite Forall_forall in Hread.
    apply Hread. by apply sorted_elem. }
  induction Hs as [|f files [raw Hraw] Hfiles IH]; simpl; [done|].
  rewrite Hraw. destruct (negb _); [exact IH|].
  destruct S; try lia. exact IH.
Qed.

(** X4.  A chunk size of zero raises.  When every file can be read and
    some file holds text after stripping, [load_all_chunks] with size [0]
    ends with the [ValueError] of [range] with a zero step. *)
Theorem zero_size_raises (data_dir : list file) (f : file) (raw : str) :
  Forall readable data_dir ->
  f ∈ data_dir -> read_text f = inr raw -> strip raw <> [] ->
  load_all_chunks data_dir 0 = inl ValueError.
Proof.
  intros Hread Hf Hraw Htext. unfold load_all_chunks.
  assert (Hs : Forall readable (sorted data_dir)).
  { apply Forall_forall. intros g Hg. rewrite Forall_forall in Hread.
    apply Hread. by apply sorted_elem. }
  apply sorted_elem in Hf. revert Hf.
  generalize (@nil str).
  induction Hs as [|g files [rawg Hg] Hfiles IH]; intros acc Hf.
  - by apply elem_of_nil in Hf.
  - simpl. rewrite Hg.
    destruct (bool_decide (strip rawg = [])) eqn:Hblank; simpl.
    + apply bool_decide_eq_true in Hblank.
      apply elem_of_cons in Hf as [->|Hf]; [congruence|]. by apply IH.
    + done.
Qed.
End ChunkerMore.

(** ** More on indexing *)

Section IndexerMore.
Context {libs : Externals}.

(** X5.  A build never reaches its loop.  For every world, a run of
    [build_index] sends nothing to the embedding service, adds nothing to
    the collection, reports no progress, and leaves the collection and the
    services as they were.  It ends in one of three ways: with the
    exception [read_text] raised, having done nothing; with the message
    that no [.txt] files were found when there is no chunk, having done
    nothing; and otherwise, whenever there is a chunk, with the [TypeError]
    of [gr.Progress(total=total)], after [collection.count()] alone when
    the collection is empty, and after [count()], [count()] and
    [get(limit=count)] when it is not. *)
Theorem build_never_reaches_the_loop (w w' : world) (r : exn + str) :
  build_index w = (r, w') ->
  collection w' = collection w
  /\ same_services w w'
  /\ embed_calls (events_since w w') = []
  /\ add_calls (events_since w w') = []
  /\ progress_calls (events_since w w') = []
  /\ match load_all_chunks (data_dir w) CHUNK_SIZE with
     | inl e => r = inl e /\ w' = w
     | inr [] =>
         r = inr (lit "No .txt files found in the research_papers folder.")
         /\ w' = w
     | inr (_ :: _) =>
         r = inl TypeError
         /\ events_since w w'
            = if 0 <? size (collection w)
              then [CountCall; CountCall; GetCall (size (collection w))]
              else [CountCall]
     end.
Proof.
  intros Hrun. destruct (build_index_run _ _ _ Hrun) as (tr & Hw' & Htr).
  rewrite build_index_unfold in Hrun. subst w'.
  rewrite (events_since_app w _ tr) by done.
  split; [done|]. split; [by repeat split|].
  split; [by destruct Htr as [->|[->| ->]]|].
  split; [by destruct Htr as [->|[->| ->]]|].
  split; [by destruct Htr as [->|[->| ->]]|].
  destruct (load_all_chunks _ _) as [e|[|c all_chunks]].
  - by injection Hrun as <- <-.
  - by injection Hrun as <- <-.
  - simpl in Hrun. injection Hrun as <- Hw. split; [done|].
    apply (f_equal trace) in Hw. revert Hw.
    unfold fetch_existing_ids, io_bind, collection_count, collection_get_ids, io_ret.
    simpl. destruct (0 <? size (collection w)); simpl; rewrite <- ?app_assoc;
      intros Hw; by apply app_inv_head in Hw.
Qed.

(** X7.  A build never removes or replaces a stored record: whatever the
    corpus and the services do, every record of the collection at the start
    is in the collection at the end, with the same text and the same
    embedding. *)
Theorem build_keeps_stored_records (w w' : world) (r : exn + str) :
  build_index w = (r, w') -> collection w ⊆ collection w'.
Proof.
  intros Hrun. by destruct (build_index_run _ _ _ Hrun) as (tr & -> & _).
Qed.

(** X8.  A corpus without text.  If every file of the directory can be
    read and holds only whitespace, the build returns the message that no
    [.txt] files were found (although there are files) and leaves the world
    as it was: the collection is not counted, nothing is embedded, no
    progress is reported. *)
Theorem blank_corpus_touches_nothing (w : world) :
  (forall f, f ∈ data_dir w -> exists raw, read_text f = inr raw /\ strip raw = []) ->
  build_index w = (inr no_documents, w).
Proof.
  intros Hblank. rewrite build_index_unfold. unfold load_all_chunks.
  rewrite load_loop_blank; [done|].
  intros f Hf. apply Hblank. by apply sorted_elem.
Qed.

End IndexerMore.

(** ** More on the stream *)

Section StreamMore.
Context {libs : Externals}.

(** The loop body, from the JSON part of the decoded line on. *)
Lemma line_body_json_part line decoded acc :
  decode line = inr decoded ->
  line_body line acc =
  if str_eqb (json_part_of decoded) (lit "[DONE]") || str_eqb (json_part_of decoded) []
  then inr Continue
  else
    match json_loads (json_part_of decoded) with
    | inl e => inl e
    | inr payload_chunk =>
        match extract_chunk_text payload_chunk with
        | inl e => inl e
        | inr chunk_text =>
            if truthy chunk_text then
              match py_iadd (PyStr acc) chunk_text with
              | inr (PyStr accumulated') => inr (Yield accumulated')
              | inr _ => inl TypeError
              | inl e => inl e
              end
            else inr Continue
        end
    end.
Proof. intros Hdec. unfold line_body. by rewrite Hdec. Qed.

Lemma skipped_for_every_accumulator line acc :
  line_delta line = inr None ->
  stream_loop [line] acc = ([], inr acc).
Proof.
  unfold line_delta. destruct line as [|b line]; [done|]. simpl.
  rewrite (handle_line_accumulates (b :: line) acc).
  by destruct (handle_line (b :: line) []) as [e|[|delta]].
Qed.

(** X10.  A line that contributes nothing can be removed from the stream.
    If the loop body, run on [line] with an empty accumulator, produces
    nothing and raises nothing, then the loop over a stream with that line
    in it produces the same values and ends in the same way as the loop
    over the stream without it, wherever the line stands and whatever has
    been accumulated before. *)
Theorem skipped_line_is_transparent (before after : list bytes) (line : bytes)
    (acc : str) :
  line_delta line = inr None ->
  stream_loop (before ++ line :: after) acc = stream_loop (before ++ after) acc.
Proof.
  intros Hskip. rewrite !stream_loop_app.
  destruct (stream_loop before acc) as [produced [e|acc']]; [done|].
  change (line :: after) with ([line] ++ after).
  rewrite stream_loop_app, (skipped_for_every_accumulator line acc' Hskip).
  by destruct (stream_loop after acc').
Qed.

(** X11.  Which lines contribute nothing.  A line that decodes is passed
    over without a value and without an exception when its JSON part is
    the end marker [[DONE]], or is empty, or is rejected by [json.loads],
    or parses to something that is not an object, or parses to an object
    with neither a [response] nor a [choices] member. *)
Theorem lines_that_are_skipped (line : bytes) (decoded : str) :
  decode line = inr decoded ->
  json_part_of decoded = lit "[DONE]"
  \/ json_part_of decoded = []
  \/ json_loads (json_part_of decoded) = inl JSONDecodeError
  \/ (exists v, json_loads (json_part_of decoded) = inr v
                /\ forall d, v <> PyDict d)
  \/ (exists d, json_loads (json_part_of decoded) = inr (PyDict d)
                /\ dict_lookup d (lit "response") = None
                /\ dict_lookup d (lit "choices") = None) ->
  line_delta line = inr None.
Proof.
  intros Hdec Hcases. unfold line_delta. destruct line as [|b line]; [done|].
  unfold handle_line. rewrite (line_body_json_part _ _ _ Hdec).
  destruct (str_eqb (json_part_of decoded) (lit "[DONE]")
            || str_eqb (json_part_of decoded) []) eqn:Hmark; [done|].
  apply orb_false_elim in Hmark as [Hdone Hempty].
  unfold str_eqb in Hdone, Hempty.
  apply bool_decide_eq_false in Hdone, Hempty.
  destruct Hcases as [?|[?|[Hj|[(v & Hj & Hv)|(d & Hj & Hr & Hc)]]]]; try done.
  - by rewrite Hj.
  - rewrite Hj. destruct v; try done. by destruct (Hv d).
  - rewrite Hj. unfold extract_chunk_text, dict_get, dict_contains.
    by rewrite Hr, Hc.
Qed.

(** A value produced by the loop body extends the accumulator. *)
Lemma yield_extends line acc acc' :
  handle_line line acc = inr (Yield acc') -> grows acc acc'.
Proof.
  unfold handle_line, line_body.
  destruct (decode line) as [e|decoded];
    [by simpl; destruct (is_JSONDecodeError e)|]. cbv zeta.
  destruct (_ || _); [done|].
  destruct (json_loads _) as [e|payload]; [by simpl; destruct (is_JSONDecodeError e)|].
  destruct (extract_chunk_text payload) as [e|chunk_text];
    [by simpl; destruct (is_JSONDecodeError e)|].
  destruct (truthy chunk_text) eqn:Htruthy; [|done].
  destruct chunk_text as [| | | |t| |]; simpl; try done.
  intros [= <-]. exists t. split; [|done].
  simpl in Htruthy. intros ->. done.
Qed.

(** X13.  The values produced by the loop grow.  Starting from the
    accumulator [acc], every value the loop produces is the previous one
    (the first: [acc]) followed by at least one character, so no value is
    produced twice and none is a truncation of an earlier one; and when the
    loop ends without an exception the accumulator is the last value
    produced, or [acc] if there was none. *)
Theorem stream_values_grow (lines : list bytes) (acc : str)
    (produced : list str) (result : exn + str) :
  stream_loop lines acc = (produced, result) ->
  (forall i a b, (acc :: produced) !! i = Some a ->
                 (acc :: produced) !! S i = Some b -> grows a b)
  /\ (forall final, result = inr final -> last (acc :: produced) = Some final).
Proof.
  revert acc produced result.
  induction lines as [|line lines IH]; intros acc produced result; simpl.
  - intros [= <- <-]. split; [by intros [|i] a b|]. by intros final [= <-].
  - destruct line as [|b0 line]; [apply IH|].
    destruct (handle_line (b0 :: line) acc) as [e|[|acc1]] eqn:Hline.
    + intros [= <- <-]. split; [by intros [|i] a b|done].
    + apply IH.
    + destruct (stream_loop lines acc1) as [produced1 result1] eqn:Hrest.
      intros [= <- <-]. destruct (IH _ _ _ Hrest) as [Hchain Hlast].
      apply yield_extends in Hline. split.
      * intros [|i] a b Ha Hb; simpl in Ha, Hb.
        -- by injection Ha as <-; injection Hb as <-.
        -- by apply (Hchain i).
      * intros final Hfinal. rewrite last_cons. by rewrite (Hlast final Hfinal).
Qed.

(** X14.  The whole answer, from the deltas.  When the lines of a stream
    with a good status contribute the deltas [deltas] and none of them
    raises, the generator produces the accumulator after each non-empty
    delta and then one more value: the complete text, that is the
    concatenation of the deltas, when the stream ends normally, and the
    error message when the connection fails after its last line. *)
Theorem answer_of_deltas (lines : list bytes) (deltas : list str)
    (failure : option exn) :
  stream_deltas lines = inr deltas ->
  stream_answer (inr (StreamResponse None lines failure))
  = accumulations [] deltas
    ++ [match failure with
        | Some e => generate_error e
        | None => concat deltas
        end].
Proof.
  intros Hd. unfold stream_answer. simpl.
  rewrite (stream_loop_deltas lines [] deltas Hd). by destruct failure.
Qed.

Lemma stream_loop_abort before after line acc produced e :
  stream_loop before [] = (produced, inr acc) ->
  line <> [] ->
  handle_line line acc = inl e ->
  stream_loop (before ++ line :: after) [] = (produced, inl e).
Proof.
  intros Hbefore Hne Hline. rewrite stream_loop_app, Hbefore. simpl.
  destruct line as [|b line]; [done|]. rewrite Hline. simpl. by rewrite app_nil_r.
Qed.

(** X15.  A [response] member that is not text.  If a line parses to an
    object whose [response] member is truthy but not a string (a number,
    [true], a non-empty list or object), [accumulated += chunk_text] raises
    [TypeError]; the inner handler lets it through, the lines that follow
    are not read, and the generator ends with the values produced so far
    followed by one error message, without the final accumulator. *)
Theorem ill_typed_response_aborts (before after : list bytes) (line : bytes)
    (decoded : str) (d : list (str * pyval)) (v : pyval)
    (produced : list str) (acc : str) (failure : option exn) :
  stream_loop before [] = (produced, inr acc) ->
  decode line = inr decoded ->
  json_part_of decoded <> lit "[DONE]" -> json_part_of decoded <> [] ->
  json_loads (json_part_of decoded) = inr (PyDict d) ->
  dict_lookup d (lit "response") = Some v ->
  truthy v = true ->
  (forall s, v <> PyStr s) ->
  stream_answer (inr (StreamResponse None (before ++ line :: after) failure))
  = produced ++ [generate_error TypeError].
Proof.
  intros Hbefore Hdec Hdone Hempty Hjson Hresp Htruthy Htype.
  assert (Hline : handle_line line acc = inl TypeError).
  { unfold handle_line. rewrite (line_body_json_part _ _ _ Hdec).
    unfold str_eqb. rewrite !bool_decide_eq_false_2 by done. simpl.
    rewrite Hjson. unfold extract_chunk_text, dict_get. rewrite Hresp, Htruthy. simpl.
    rewrite Htruthy. destruct v; try done. by destruct (Htype s). }
  assert (Hne : line <> []).
  { intros ->. unfold decode in Hdec. simpl in Hdec. injection Hdec as <-.
    by destruct Hempty. }
  unfold stream_answer. simpl.
  by rewrite (stream_loop_abort _ after _ _ _ _ Hbefore Hne Hline).
Qed.

(** Stripping, one end at a time. *)
Lemma lstrip_app a b :
  lstrip (a ++ b) = match lstrip a with [] => lstrip b | _ :: _ => lstrip a ++ b end.
Proof.
  induction a as [|c a IH]; simpl; [done|]. by destruct (isspace c).
Qed.

Lemma lstrip_idemp s : lstrip (lstrip s) = lstrip s.
Proof.
  induction s as [|c s IH]; simpl; [done|].
  destruct (isspace c) eqn:Hc; [done|]. simpl. by rewrite Hc.
Qed.

Lemma rstrip_cons c s :
  rstrip (c :: s)
  = if isspace c && bool_decide (rstrip s = []) then [] else c :: rstrip s.
Proof.
  unfold rstrip. simpl. rewrite lstrip_app.
  destruct (lstrip (rev s)) as [|x l] eqn:Hl; simpl.
  - destruct (isspace c); by simpl.
  - rewrite rev_app_distr. simpl.
    rewrite bool_decide_eq_false_2; [by rewrite andb_false_r|].
    intros Hnil. apply (f_equal length) in Hnil.
    rewrite length_app in Hnil. simpl in Hnil. lia.
Qed.

Lemma rstrip_idemp s : rstrip (rstrip s) = rstrip s.
Proof. unfold rstrip. by rewrite rev_involutive, lstrip_idemp. Qed.

Lemma lstrip_rstrip s : lstrip (rstrip s) = rstrip (lstrip s).
Proof.
  induction s as [|c s IH]; [done|]. rewrite rstrip_cons. simpl.
  destruct (isspace c) eqn:Hc; simpl.
  - destruct (bool_decide (rstrip s = [])) eqn:Hs; simpl.
    + apply bool_decide_eq_true in Hs. by rewrite <- IH, Hs.
    + by rewrite Hc.
  - by rewrite Hc, rstrip_cons, Hc.
Qed.

Lemma strip_rstrip s : strip (rstrip s) = strip s.
Proof. unfold strip. by rewrite lstrip_rstrip, rstrip_idemp. Qed.

Lemma strip_data_prefix decoded :
  strip (lit "data:" ++ decoded) = lit "data:" ++ rstrip decoded.
Proof.
  unfold strip. change (lstrip (lit "data:" ++ decoded)) with (lit "data:" ++ decoded).
  unfold rstrip. rewrite rev_app_distr, lstrip_app.
  destruct (lstrip (rev decoded)) as [|x l]; [done|].
  by rewrite rev_app_distr, rev_involutive.
Qed.

Lemma startswith_app (p s : str) : startswith (p ++ s) p = true.
Proof.
  induction p as [|a p IH]; simpl; [by destruct s|].
  by rewrite N.eqb_refl, IH.
Qed.

Lemma json_part_data_prefix decoded :
  startswith (strip decoded) (lit "data:") = false ->
  json_part_of (lit "data:" ++ decoded) = json_part_of decoded.
Proof.
  intros Hplain. unfold json_part_of. cbv zeta.
  rewrite Hplain, strip_data_prefix.
  rewrite startswith_app.
  change (slice_from (lit "data:" ++ rstrip decoded) (length (lit "data:")))
    with (rstrip decoded).
  apply strip_rstrip.
Qed.

Lemma decode_data_prefix line :
  decode (ascii_bytes "data:" ++ line)
  = match decode line with
    | inl e => inl e
    | inr decoded => inr (lit "data:" ++ decoded)
    end.
Proof.
  unfold decode. rewrite map_app.
  change (map Byte.to_N (ascii_bytes "data:")) with (lit "data:").
  simpl. by destruct (utf8_decode (map Byte.to_N line)).
Qed.

Lemma handle_line_data_prefix line acc :
  (forall decoded, decode line = inr decoded ->
     startswith (strip decoded) (lit "data:") = false) ->
  handle_line (ascii_bytes "data:" ++ line) acc = handle_line line acc.
Proof.
  intros Hplain. unfold handle_line.
  destruct (decode line) as [e|decoded] eqn:Hdec.
  - unfold line_body. by rewrite decode_data_prefix, Hdec.
  - rewrite (line_body_json_part line decoded acc Hdec).
    rewrite (line_body_json_part _ (lit "data:" ++ decoded) acc);
      [|by rewrite decode_data_prefix, Hdec].
    by rewrite (json_part_data_prefix decoded (Hplain decoded eq_refl)).
Qed.

Lemma stream_loop_nonempty_line line lines acc :
  line <> [] ->
  stream_loop (line :: lines) acc
  = match handle_line line acc with
    | inl e => ([], inl e)
    | inr Continue => stream_loop lines acc
    | inr (Yield acc') =>
        let '(produced, result) := stream_loop lines acc' in
        (acc' :: produced, result)
    end.
Proof. by destruct line. Qed.

Lemma data_prefix_one_line line acc :
  (forall decoded, decode line = inr decoded ->
     startswith (strip decoded) (lit "data:") = false) ->
  stream_loop [ascii_bytes "data:" ++ line] acc = stream_loop [line] acc.
Proof.
  intros Hplain. destruct line as [|b line].
  - rewrite app_nil_r. by vm_compute.
  - rewrite !stream_loop_nonempty_line by done.
    by rewrite (handle_line_data_prefix (b :: line) acc Hplain).
Qed.

(** X12.  The [data:] framing is optional.  Putting the bytes [data:] in
    front of a line that does not itself begin with [data:] (after
    stripping) changes nothing in what the loop produces nor in how it
    ends: both lines have the same JSON part, and a line that fails to
    decode fails in both forms. *)
Theorem data_prefix_is_transparent (before after : list bytes) (line : bytes)
    (acc : str) :
  (forall decoded, decode line = inr decoded ->
     startswith (strip decoded) (lit "data:") = false) ->
  stream_loop (before ++ (ascii_bytes "data:" ++ line) :: after) acc
  = stream_loop (before ++ line :: after) acc.
Proof.
  intros Hplain.
  rewrite (cons_middle _ before after), (cons_middle line before after).
  rewrite (stream_loop_app before), (stream_loop_app before).
  destruct (stream_loop before acc) as [produced [e|acc']]; [done|].
  rewrite (stream_loop_app [_] after), (stream_loop_app [line] after).
  by rewrite (data_prefix_one_line line acc' Hplain).
Qed.
End StreamMore.

(** ** More on queries *)

Section AskMore.
Context {libs : Externals}.

Lemma lstrip_nil_whitespace s : lstrip s = [] -> whitespace_only s = true.
Proof.
  induction s as [|c s IH]; simpl; [done|].
  destruct (isspace c); [exact IH|done].
Qed.

Lemma lstrip_head s c rest : lstrip s = c :: rest -> isspace c = false.
Proof.
  induction s as [|a s IH]; simpl; [done|].
  destruct (isspace a) eqn:Ha; [exact IH|]. by intros [= <- _].
Qed.

Lemma strip_nil_whitespace s : strip s = [] <-> whitespace_only s = true.
Proof.
  split.
  - unfold strip. destruct (lstrip s) as [|c rest] eqn:Hl.
    + intros _. by apply lstrip_nil_whitespace.
    + rewrite rstrip_cons, (lstrip_head _ _ _ Hl). done.
  - intros Hs. unfold strip. by rewrite (lstrip_whitespace _ Hs).
Qed.

(** The guard of the first statement holds exactly for blank questions. *)
Lemma blank_test question :
  negb (truthy (PyStr question)) || str_eqb (strip question) []
  = whitespace_only question.
Proof.
  destruct (whitespace_only question) eqn:Hq.
  - apply orb_true_iff. right. apply bool_decide_eq_true.
    by apply strip_nil_whitespace.
  - apply orb_false_iff. split.
    + simpl. rewrite negb_involutive. apply bool_decide_eq_false.
      intros ->. done.
    + apply bool_decide_eq_false. intros Hs%strip_nil_whitespace. congruence.
Qed.

Lemma stream_answer_nonempty reply : stream_answer reply <> [].
Proof.
  unfold stream_answer. destruct reply as [e|r]; [done|].
  destruct (stream_status r); [done|].
  destruct (stream_loop (stream_lines r) []) as [produced [e|acc]].
  - by destruct produced.
  - destruct (stream_failure r); by destruct produced.
Qed.

Lemma documents_of_errors results e :
  documents_of results = inl e -> e ∈ shape_errors.
Proof.
  unfold documents_of, shape_errors. destruct results as [| | | | |l|d]; try (intros [= <-]; set_solver).
  unfold first_item.
  destruct (dict_get d (lit "documents") (PyList [PyList []]))
    as [| | | |[|c s]|[|x l]|d']; intros [= <-]; set_solver.
Qed.

Lemma context_of_errors docs e : context_of docs = inl e -> e = TypeError.
Proof.
  unfold context_of. destruct (truthy docs); [|done].
  destruct (iterate docs) as [items|]; [|by intros [= <-]].
  destruct (all_str items); [done|by intros [= <-]].
Qed.

Lemma all_str_texts docs : all_str (map PyStr docs) = Some docs.
Proof. induction docs as [|d docs IH]; simpl; [done|]. by rewrite IH. Qed.

Lemma context_of_texts docs :
  context_of (PyList (map PyStr docs)) = inr (join (newline ++ newline) docs).
Proof.
  unfold context_of. destruct docs as [|d docs]; [done|].
  change (truthy (PyList (map PyStr (d :: docs)))) with true. cbv iota.
  unfold iterate. by rewrite all_str_texts.
Qed.

Ltac same_world :=
  unfold record_event, record_events; simpl; by rewrite <- ?app_assoc.

(** The run of a question that is not blank, by the events it leaves. *)
Lemma ask_run question top_k w r w' :
  ask_with_context_stream question top_k w = (r, w') ->
  whitespace_only question = false ->
  exists tr, w' = record_events (EmbedCall question :: tr) w
    /\ ((tr = [] /\ exists e, r = ([lit "Error getting question embedding: " ++ exn_str e], None))
        \/ exists q_emb,
             embedding_of (embed_api w (trace w) question) = inr q_emb
             /\ ((tr = [QueryCall q_emb top_k]
                  /\ ((exists e, r = ([lit "Error querying ChromaDB: " ++ exn_str e], None))
                      \/ exists e, r = ([], Some e) /\ e ∈ shape_errors))
                 \/ exists context reply,
                      tr = [QueryCall q_emb top_k;
                            GenerateCall (make_prompt context question)]
                      /\ r = (stream_answer reply, None))).
Proof.
  rewrite ask_unfold, blank_test. intros Hrun Hq. rewrite Hq in Hrun.
  cbv zeta in Hrun.
  destruct (embedding_of _) as [e|q_emb] eqn:Hemb.
  { injection Hrun as <- <-. exists []. split; [done|]. left. eauto. }
  destruct (query_api _ _ _ _) as [e|results].
  { injection Hrun as <- <-. exists [QueryCall q_emb top_k]. split; [same_world|].
    right. exists q_emb. split; [done|]. left. split; [done|]. left. eauto. }
  destruct (documents_of results) as [e|docs] eqn:Hdocs.
  { injection Hrun as <- <-. exists [QueryCall q_emb top_k]. split; [same_world|].
    right. exists q_emb. split; [done|]. left. split; [done|]. right.
    exists e. split; [done|]. by apply (documents_of_errors results). }
  destruct (context_of docs) as [e|context] eqn:Hctx.
  { injection Hrun as <- <-. exists [QueryCall q_emb top_k]. split; [same_world|].
    right. exists q_emb. split; [done|]. left. split; [done|]. right.
    exists e. split; [done|]. rewrite (context_of_errors docs e Hctx).
    unfold shape_errors. set_solver. }
  injection Hrun as <- <-.
  exists [QueryCall q_emb top_k; GenerateCall (make_prompt context question)].
  split; [same_world|].
  right. exists q_emb. split; [done|]. right. eauto.
Qed.

Lemma events_since_record tr w : events_since w (record_events tr w) = tr.
Proof. by apply events_since_app. Qed.

(** X16.  The calls of a query.  Every run of [ask_with_context_stream]
    leaves the collection, the files and the services as they were; it
    calls nothing exactly when the question is blank; and otherwise its
    calls are an initial part of: the embedding of the question as typed
    (not stripped), one similarity search with that [top_k], one POST to
    the generation service with a prompt built around the question.  Each
    service is called at most once and never out of this order. *)
Theorem ask_call_discipline (question : str) (top_k : Z) (w w' : world)
    (r : list str * option exn) :
  ask_with_context_stream question top_k w = (r, w') ->
  collection w' = collection w
  /\ same_services w w'
  /\ (events_since w w' = [] <-> whitespace_only question = true)
  /\ exists q_emb context,
       events_since w w'
       `prefix_of` [EmbedCall question; QueryCall q_emb top_k;
                    GenerateCall (make_prompt context question)].
Proof.
  intros Hrun. destruct (whitespace_only question) eqn:Hq.
  - rewrite ask_unfold, blank_test, Hq in Hrun. injection Hrun as <- <-.
    rewrite events_since_refl. split; [done|]. split; [apply same_services_refl|].
    split; [done|]. exists PyNone, []. apply prefix_nil.
  - destruct (ask_run _ _ _ _ _ Hrun Hq) as (tr & -> & Hshape).
    rewrite events_since_record. split; [done|]. split; [by repeat split|].
    split; [done|].
    destruct Hshape as [[-> _]|(q_emb & _ & [[-> _]|(context & reply & -> & _)])].
    + exists PyNone, []. by eexists.
    + exists q_emb, []. by eexists.
    + exists q_emb, context. by exists [].
Qed.

(** X17.  A query shows something unless it raises.  A run that ends
    without an exception has produced at least one value.  A run that ends
    with an exception has produced nothing; the exception is one of
    [AttributeError], [IndexError], [KeyError] and [TypeError], raised by
    the two unguarded statements that take the documents out of the search
    result and join them; the embedding service and the search have been
    called, the generation service has not. *)
Theorem ask_yields_unless_it_raises (question : str) (top_k : Z) (w w' : world)
    (produced : list str) (raised : option exn) :
  ask_with_context_stream question top_k w = ((produced, raised), w') ->
  (raised = None -> produced <> [])
  /\ (forall e, raised = Some e ->
        produced = [] /\ e ∈ shape_errors
        /\ generate_calls (events_since w w') = []
        /\ exists q_emb, events_since w w'
                         = [EmbedCall question; QueryCall q_emb top_k]).
Proof.
  intros Hrun. destruct (whitespace_only question) eqn:Hq.
  - rewrite ask_unfold, blank_test, Hq in Hrun. injection Hrun as <- <- <-.
    split; [done|]. by intros e.
  - destruct (ask_run _ _ _ _ _ Hrun Hq) as (tr & -> & Hshape).
    rewrite events_since_record.
    destruct Hshape as [[-> [e [= -> ->]]]|(q_emb & _ & [[-> [[e [= -> ->]]|(e & [= -> ->] & He)]]|(context & reply & -> & [= -> ->])])].
    + split; [done|]. by intros e'.
    + split; [done|]. by intros e'.
    + split; [done|]. intros e' [= <-]. repeat split; try done. by exists q_emb.
    + split; [intros _; apply stream_answer_nonempty|]. by intros e'.
Qed.

(** X18.  From the search result to the prompt.  For a question that is
    not blank, when the embedding service returns [q_emb] and the search
    returns an object whose [documents] member (or, if it is absent, the
    default [[[]]]) is a list whose first element is a list of texts, the
    run sends exactly one prompt to the generation service: the fixed
    instruction, the texts of that first list joined by blank lines (the
    empty context if there are none), and the question as typed.  Further
    result lists are ignored, and what the run produces is the answer
    streamed for that prompt. *)
Theorem prompt_carries_retrieved_documents (question : str) (top_k : Z)
    (w : world) (q_emb : pyval) (results : list (str * pyval))
    (docs : list str) (others : list pyval) :
  whitespace_only question = false ->
  embedding_of (embed_api w (trace w) question) = inr q_emb ->
  query_api w (trace w ++ [EmbedCall question]) q_emb top_k = inr (PyDict results) ->
  dict_get results (lit "documents") (PyList [PyList []])
  = PyList (PyList (map PyStr docs) :: others) ->
  let prompt := make_prompt (join (newline ++ newline) docs) question in
  ask_with_context_stream question top_k w
  = ((stream_answer
        (generate_api w (trace w ++ [EmbedCall question; QueryCall q_emb top_k])
                      prompt), None),
     record_events [EmbedCall question; QueryCall q_emb top_k; GenerateCall prompt] w).
Proof.
  intros Hq Hemb Hquery Hdocs prompt.
  rewrite ask_unfold, blank_test, Hq, Hemb. cbv zeta. simpl trace.
  rewrite Hquery. unfold documents_of. rewrite Hdocs. simpl first_item. cbv iota.
  rewrite context_of_texts.
  unfold record_event, record_events. simpl. by rewrite <- !app_assoc.
Qed.

End AskMore.

(** * Concrete runs *)

(** The sample stream: framing, a blank line, a malformed line and the end
    marker do not disturb the three accumulated values. *)
Lemma streaming_accumulation_witness :
  stream_deltas (libs:=sample_libs) hello_lines
    = inr [lit "Hel"; lit "lo"; lit " world"]
  /\ stream_loop (libs:=sample_libs) hello_lines []
     = ([lit "Hel"; lit "Hello"; lit "Hello world"], inr (lit "Hello world"))
  /\ stream_answer (libs:=sample_libs) (inr (StreamResponse None hello_lines None))
     = [lit "Hel"; lit "Hello"; lit "Hello world"; lit "Hello world"].
Proof.
  split; [vm_compute; reflexivity|].
  apply (@streaming_accumulation sample_libs hello_lines).
  vm_compute; reflexivity.
Defined.

(** Two builds in a row with every service up: both end at the [with]
    statement, and the second one embeds nothing. *)
Lemma rebuild_embeds_nothing_witness :
  first_build world_up = (inl TypeError, (first_build world_up).2)
  /\ second_build world_up = (inl TypeError, (second_build world_up).2)
  /\ embed_calls (events_since (first_build world_up).2 (second_build world_up).2) = []
  /\ size (collection (second_build world_up).2)
     = size (collection (first_build world_up).2)
  /\ @inl exn str TypeError = inl TypeError.
Proof.
  assert (H1 : first_build world_up = (inl TypeError, (first_build world_up).2))
    by (vm_compute; reflexivity).
  assert (H2 : second_build world_up = (inl TypeError, (second_build world_up).2))
    by (vm_compute; reflexivity).
  split; [exact H1|]. split; [exact H2|].
  exact (@rebuild_embeds_nothing sample_libs world_up _ _ _ _ H1 H2).
Defined.

(** C3.  The build over stored ids [0..2] and five chunks.  With the ids
    ["0"], ["1"] and ["2"] stored, every service up and a corpus that gives
    the five chunks [0..4], [build_index] counts the collection, fetches
    the stored ids and then raises [TypeError] at the [with] statement: it
    returns no status, calls the embedding service for no chunk (so not
    for the chunks 3 and 4) and adds nothing to the collection. *)
Theorem dedup_build_raises_before_embedding :
  dom (collection world_up) = {[ lit "0"; lit "1"; lit "2" ]}
  /\ load_all_chunks (libs:=sample_libs) (data_dir world_up) CHUNK_SIZE
     = inr [lit "alpha"; lit "beta"; lit "gamma"; lit "delta"; lit "epsilon"]
  /\ build_index (libs:=sample_libs) world_up
     = (inl TypeError, record_events [CountCall; CountCall; GetCall 3] world_up)
  /\ embed_calls (events_since world_up (first_build world_up).2) = []
  /\ add_calls (events_since world_up (first_build world_up).2) = []
  /\ collection (first_build world_up).2 = collection world_up
  /\ embed_calls (events_since world_up (first_build world_up).2)
     <> [lit "delta"; lit "epsilon"].
Proof. vm_compute. repeat split; try reflexivity. discriminate. Qed.

(** C5.  The build while the embedding service is down.  With the ids
    ["0"], ["1"] and ["2"] stored, five chunks in the corpus and an
    embedding service that fails on every request, [build_index] counts
    the collection, fetches the stored ids and then raises [TypeError] at
    the [with] statement: the embedding service is not called, so its
    failure is never met, and the run ends with an exception instead of a
    returned message. *)
Theorem embedding_failure_is_not_reached :
  (forall hist text, embedding_of (embed_api world_down hist text) = inl refused)
  /\ load_all_chunks (libs:=sample_libs) (data_dir world_down) CHUNK_SIZE
     = inr [lit "alpha"; lit "beta"; lit "gamma"; lit "delta"; lit "epsilon"]
  /\ build_index (libs:=sample_libs) world_down
     = (inl TypeError, record_events [CountCall; CountCall; GetCall 3] world_down)
  /\ embed_calls (events_since world_down (first_build world_down).2) = []
  /\ (forall status, (first_build world_down).1 <> inr status).
Proof.
  split; [by intros hist text|].
  split; [vm_compute; reflexivity|]. split; [vm_compute; reflexivity|].
  split; [vm_compute; reflexivity|].
  intros status H. vm_compute in H. discriminate H.
Qed.

(** A text of eleven characters once stripped, cut in chunks of four. *)
Lemma chunks_partition_text_witness :
  (0 < 4)%Z
  /\ let T := strip (lit "  hello world ") in
     let size := Z.to_nat 4 in
     exists chunks,
       load_all_chunks (libs:=sample_libs) [File (lit "a.txt") (inr (lit "  hello world "))] 4
         = inr chunks
       /\ concat chunks = T
       /\ (forall k c, chunks !! k = Some c ->
             c = slice T (k * size) (k * size + size) /\ length c <= size)
       /\ (forall k c, chunks !! k = Some c -> k + 1 < length chunks ->
             length c = size)
       /\ length chunks = (length T + size - 1) / size.
Proof.
  split; [lia|].
  apply (@chunks_partition_text sample_libs (lit "a.txt") (lit "  hello world ") 4). lia.
Defined.


(** The generation service answers the POST with an error status. *)
Lemma generation_http_error_witness :
  ask_with_context_stream (libs:=sample_libs) (lit "What?") 3 world_http_error
    = (sample_ask.1, sample_ask.2)
  /\ trace sample_ask.2 = asked ++ [GenerateCall asked_prompt]
  /\ generate_api world_http_error asked asked_prompt
     = inr (StreamResponse (Some server_error) [] None)
  /\ sample_ask.1.1 = [lit "Error calling Ollama generate API: 500 Server Error"]
     /\ sample_ask.1.2 = None.
Proof.
  assert (H1 : ask_with_context_stream (libs:=sample_libs) (lit "What?") 3 world_http_error
    = ((sample_ask.1.1, sample_ask.1.2), sample_ask.2))
    by (vm_compute; reflexivity).
  assert (H2 : trace sample_ask.2 = asked ++ [GenerateCall asked_prompt])
    by (vm_compute; reflexivity).
  split; [vm_compute; reflexivity|]. split; [exact H2|]. split; [reflexivity|].
  apply (@generation_http_error sample_libs (lit "What?") 3 world_http_error _ _ _
           asked asked_prompt (StreamResponse (Some server_error) [] None)
           server_error H1 H2); first [reflexivity | simpl; lia].
Defined.


(** A payload with an empty direct text: a choice with delta content, an
    entry that is not an object, a choice whose delta content is null and
    a choice whose text member is null. *)
Lemma delta_extraction_witness :
  dict_get payload_mixed (lit "response") (PyStr []) = PyStr []
  /\ extract_chunk_text (PyDict payload_mixed) = inr (PyStr (lit "Hello")).
Proof.
  split; [reflexivity|].
  apply (@delta_extraction payload_mixed (PyStr [])
           [choice_with_content; PyInt 7; choice_null_content; choice_without_text]
           [lit "Hel"; []; lit "lo"; []]).
  - reflexivity.
  - intros _. split; [reflexivity|]. split; [reflexivity|].
    constructor; [by eapply contributes_content|].
    constructor; [by apply contributes_nothing|].
    constructor; [by eapply contributes_text|].
    constructor; [by eapply contributes_no_text|].
    constructor.
Defined.

(** A payload without direct text whose only choice has a null [delta]
    and the text [t]: the choice does not contribute its text member;
    [ch.get("delta", {})] is [None], and [.get] on it raises
    [AttributeError]. *)
Lemma null_delta_raises :
  dict_lookup payload_null_delta (lit "response") = None
  /\ dict_lookup payload_null_delta (lit "choices") = Some (PyList [choice_null_delta])
  /\ dict_get [(lit "delta", PyNone); (lit "text", PyStr (lit "t"))]
       (lit "text") (PyStr []) = PyStr (lit "t")
  /\ extract_chunk_text (PyDict payload_null_delta) = inl AttributeError
  /\ extract_chunk_text (PyDict payload_null_delta) <> inr (PyStr (lit "t")).
Proof. vm_compute. repeat split; try reflexivity. discriminate. Qed.

(** The sample corpus, one of whose files is blank. *)
Lemma load_all_chunks_nonempty_witness :
  (0 < CHUNK_SIZE)%Z
  /\ match load_all_chunks (libs:=sample_libs) corpus CHUNK_SIZE with
     | inr chunks => Forall (fun c : str => c <> []) chunks
     | inl e => exists f, f ∈ corpus /\ read_text f = inl e
     end.
Proof.
  split; [reflexivity|].
  apply (@load_all_chunks_nonempty sample_libs corpus CHUNK_SIZE). reflexivity.
Defined.

(** ** Further runs *)

(** The byte-wise order of paths is a strict total order. *)
Lemma str_ltb_irrefl a : str_ltb a a = false.
Proof.
  induction a as [|x a IH]; simpl; [done|].
  by rewrite N.ltb_irrefl, N.eqb_refl, IH.
Qed.

Lemma str_ltb_trans a b c :
  str_ltb a b = true -> str_ltb b c = true -> str_ltb a c = true.
Proof.
  revert b c. induction a as [|x a IH]; intros [|y b] [|z c]; simpl; try done.
  intros Hab Hbc.
  apply orb_true_iff in Hab. apply orb_true_iff in Hbc. apply orb_true_iff.
  destruct Hab as [Hxy%N.ltb_lt|[Hxy%N.eqb_eq Hab]%andb_prop];
    destruct Hbc as [Hyz%N.ltb_lt|[Hyz%N.eqb_eq Hbc]%andb_prop].
  - left. apply N.ltb_lt. lia.
  - left. apply N.ltb_lt. lia.
  - left. apply N.ltb_lt. lia.
  - right. apply andb_true_intro. split; [apply N.eqb_eq; lia|].
    by apply (IH b c).
Qed.

Lemma str_ltb_total a b : a <> b -> str_ltb a b = true \/ str_ltb b a = true.
Proof.
  revert b. induction a as [|x a IH]; intros [|y b] Hne; simpl; try done.
  - by left.
  - by right.
  - destruct (N.lt_trichotomy x y) as [Hlt|[->|Hgt]].
    + left. apply orb_true_iff. left. by apply N.ltb_lt.
    + rewrite N.ltb_irrefl, N.eqb_refl. simpl. apply IH. congruence.
    + right. apply orb_true_iff. left. by apply N.ltb_lt.
Qed.

(** The sample corpus cut into chunks of three characters. *)
Lemma chunks_of_directory_witness :
  (0 < 3)%Z
  /\ Forall readable corpus
  /\ exists per_file,
       Forall2 (fun f c => load_all_chunks (libs:=sample_libs) [f] 3 = inr c)
               (sorted (libs:=sample_libs) corpus) per_file
       /\ load_all_chunks (libs:=sample_libs) corpus 3 = inr (concat per_file).
Proof.
  assert (H1 : (0 < 3)%Z) by lia.
  assert (H2 : Forall readable corpus) by (repeat constructor; eexists; reflexivity).
  split; [exact H1|]. split; [exact H2|].
  exact (@chunks_of_directory sample_libs corpus 3 H1 H2).
Defined.

(** The sample corpus listed backwards gives the same chunks. *)
Lemma listing_order_irrelevant_witness :
  NoDup (map path corpus)
  /\ corpus ≡ₚ rev corpus
  /\ load_all_chunks (libs:=sample_libs) corpus CHUNK_SIZE
     = load_all_chunks (libs:=sample_libs) (rev corpus) CHUNK_SIZE.
Proof.
  assert (H1 : NoDup (map path corpus))
    by (apply (bool_decide_unpack _); vm_compute; reflexivity).
  assert (H2 : corpus ≡ₚ rev corpus) by apply Permutation_rev.
  split; [exact H1|]. split; [exact H2|].
  exact (@listing_order_irrelevant sample_libs corpus (rev corpus) CHUNK_SIZE
           str_ltb_irrefl str_ltb_trans str_ltb_total H1 H2).
Defined.

(** The sample corpus with chunk size [-1]. *)
Lemma negative_size_drops_everything_witness :
  (-1 < 0)%Z
  /\ Forall readable corpus
  /\ load_all_chunks (libs:=sample_libs) corpus (-1) = inr [].
Proof.
  assert (H1 : (-1 < 0)%Z) by lia.
  assert (H2 : Forall readable corpus) by (repeat constructor; eexists; reflexivity).
  split; [exact H1|]. split; [exact H2|].
  exact (@negative_size_drops_everything sample_libs corpus (-1) H1 H2).
Defined.

(** The sample corpus with chunk size [0]. *)
Lemma zero_size_raises_witness :
  Forall readable corpus
  /\ File (lit "c.txt") (inr (lit "gamma ")) ∈ corpus
  /\ strip (lit "gamma ") <> []
  /\ load_all_chunks (libs:=sample_libs) corpus 0 = inl ValueError.
Proof.
  assert (H1 : Forall readable corpus) by (repeat constructor; eexists; reflexivity).
  assert (H2 : File (lit "c.txt") (inr (lit "gamma ")) ∈ corpus) by constructor.
  assert (H3 : strip (lit "gamma ") <> [])
    by (intros H; vm_compute in H; discriminate H).
  split; [exact H1|]. split; [exact H2|]. split; [exact H3|].
  exact (@zero_size_raises sample_libs corpus _ (lit "gamma ") H1 H2 eq_refl H3).
Defined.

(** The build over the sample corpus with three chunks stored. *)
Lemma build_never_reaches_the_loop_witness :
  first_build world_up = (inl TypeError, (first_build world_up).2)
  /\ collection (first_build world_up).2 = collection world_up
  /\ same_services world_up (first_build world_up).2
  /\ embed_calls (events_since world_up (first_build world_up).2) = []
  /\ add_calls (events_since world_up (first_build world_up).2) = []
  /\ progress_calls (events_since world_up (first_build world_up).2) = []
  /\ match load_all_chunks (libs:=sample_libs) (data_dir world_up) CHUNK_SIZE with
     | inl e => @inl exn str TypeError = inl e /\ (first_build world_up).2 = world_up
     | inr [] =>
         @inl exn str TypeError
         = inr (lit "No .txt files found in the research_papers folder.")
         /\ (first_build world_up).2 = world_up
     | inr (_ :: _) =>
         @inl exn str TypeError = inl TypeError
         /\ events_since world_up (first_build world_up).2
            = if 0 <? size (collection world_up)
              then [CountCall; CountCall; GetCall (size (collection world_up))]
              else [CountCall]
     end.
Proof.
  assert (H1 : first_build world_up = (inl TypeError, (first_build world_up).2))
    by (vm_compute; reflexivity).
  split; [exact H1|].
  exact (@build_never_reaches_the_loop sample_libs world_up _ _ H1).
Defined.

(** A build keeps the three stored records. *)
Lemma build_keeps_stored_records_witness :
  first_build world_failing
  = ((first_build world_failing).1, (first_build world_failing).2)
  /\ collection world_failing ⊆ collection (first_build world_failing).2.
Proof.
  assert (H1 : first_build world_failing
               = ((first_build world_failing).1, (first_build world_failing).2))
    by (vm_compute; reflexivity).
  split; [exact H1|].
  exact (@build_keeps_stored_records sample_libs world_failing _ _ H1).
Defined.

(** A directory with a blank and an empty file. *)
Lemma blank_corpus_touches_nothing_witness :
  (forall f, f ∈ data_dir world_blank ->
     exists raw, read_text f = inr raw /\ strip raw = [])
  /\ build_index (libs:=sample_libs) world_blank
     = (inr (no_documents), world_blank).
Proof.
  assert (H1 : forall f, f ∈ data_dir world_blank ->
                 exists raw, read_text f = inr raw /\ strip raw = []).
  { apply Forall_forall. repeat constructor; eexists; (split; [reflexivity|]);
      vm_compute; reflexivity. }
  split; [exact H1|].
  exact (@blank_corpus_touches_nothing sample_libs world_blank H1).
Defined.

(** A malformed line between two deltas. *)
Lemma skipped_line_is_transparent_witness :
  line_delta (libs:=sample_libs) (ascii_bytes "not json") = inr None
  /\ stream_loop (libs:=sample_libs)
       ([response_line "Hel"] ++ ascii_bytes "not json" :: [response_line "lo"]) []
     = stream_loop (libs:=sample_libs)
         ([response_line "Hel"] ++ [response_line "lo"]) [].
Proof.
  assert (H1 : line_delta (libs:=sample_libs) (ascii_bytes "not json") = inr None)
    by (vm_compute; reflexivity).
  split; [exact H1|].
  exact (@skipped_line_is_transparent sample_libs [response_line "Hel"]
           [response_line "lo"] (ascii_bytes "not json") [] H1).
Defined.

(** The end marker with its framing. *)
Lemma lines_that_are_skipped_witness :
  decode (ascii_bytes "data: [DONE]") = inr (lit "data: [DONE]")
  /\ json_part_of (lit "data: [DONE]") = lit "[DONE]"
  /\ line_delta (libs:=sample_libs) (ascii_bytes "data: [DONE]") = inr None.
Proof.
  assert (H1 : decode (ascii_bytes "data: [DONE]") = inr (lit "data: [DONE]"))
    by (vm_compute; reflexivity).
  assert (H2 : json_part_of (lit "data: [DONE]") = lit "[DONE]")
    by (vm_compute; reflexivity).
  split; [exact H1|]. split; [exact H2|].
  exact (@lines_that_are_skipped sample_libs (ascii_bytes "data: [DONE]")
           (lit "data: [DONE]") H1 (or_introl H2)).
Defined.

(** The three values of the sample stream. *)
Lemma stream_values_grow_witness :
  stream_loop (libs:=sample_libs) hello_lines []
  = ([lit "Hel"; lit "Hello"; lit "Hello world"], inr (lit "Hello world"))
  /\ (forall i a b,
        ([] :: [lit "Hel"; lit "Hello"; lit "Hello world"]) !! i = Some a ->
        ([] :: [lit "Hel"; lit "Hello"; lit "Hello world"]) !! S i = Some b ->
        grows a b)
  /\ (forall final, @inr exn str (lit "Hello world") = inr final ->
        last ([] :: [lit "Hel"; lit "Hello"; lit "Hello world"]) = Some final).
Proof.
  assert (H1 : stream_loop (libs:=sample_libs) hello_lines []
               = ([lit "Hel"; lit "Hello"; lit "Hello world"],
                  inr (lit "Hello world")))
    by (vm_compute; reflexivity).
  split; [exact H1|].
  exact (@stream_values_grow sample_libs hello_lines [] _ _ H1).
Defined.

(** The sample stream on a connection that stalls after the last line. *)
Lemma answer_of_deltas_witness :
  stream_deltas (libs:=sample_libs) hello_lines
  = inr [lit "Hel"; lit "lo"; lit " world"]
  /\ stream_answer (libs:=sample_libs)
       (inr (StreamResponse None hello_lines (Some timed_out)))
     = accumulations [] [lit "Hel"; lit "lo"; lit " world"]
       ++ [generate_error (libs:=sample_libs) timed_out].
Proof.
  assert (H1 : stream_deltas (libs:=sample_libs) hello_lines
               = inr [lit "Hel"; lit "lo"; lit " world"])
    by (vm_compute; reflexivity).
  split; [exact H1|].
  exact (@answer_of_deltas sample_libs hello_lines _ (Some timed_out) H1).
Defined.

(** A numeric [response] after one delta. *)
Lemma ill_typed_response_aborts_witness :
  stream_loop (libs:=number_libs) [response_line "Hel"] []
  = ([lit "Hel"], inr (lit "Hel"))
  /\ decode number_line = inr number_text
  /\ json_part_of number_text <> lit "[DONE]"
  /\ json_part_of number_text <> []
  /\ json_loads (Externals:=number_libs) (json_part_of number_text)
     = inr (PyDict [(lit "response", PyInt 5)])
  /\ dict_lookup [(lit "response", PyInt 5)] (lit "response") = Some (PyInt 5)
  /\ truthy (PyInt 5) = true
  /\ (forall s, PyInt 5 <> PyStr s)
  /\ stream_answer (libs:=number_libs)
       (inr (StreamResponse None
               ([response_line "Hel"] ++ number_line :: [response_line "lo"]) None))
     = [lit "Hel"] ++ [generate_error (libs:=number_libs) TypeError].
Proof.
  assert (H1 : stream_loop (libs:=number_libs) [response_line "Hel"] []
               = ([lit "Hel"], inr (lit "Hel"))) by (vm_compute; reflexivity).
  assert (H2 : decode number_line = inr number_text) by (vm_compute; reflexivity).
  assert (H3 : json_part_of number_text <> lit "[DONE]")
    by (intros H; vm_compute in H; discriminate H).
  assert (H4 : json_part_of number_text <> [])
    by (intros H; vm_compute in H; discriminate H).
  assert (H5 : json_loads (Externals:=number_libs) (json_part_of number_text)
               = inr (PyDict [(lit "response", PyInt 5)]))
    by (vm_compute; reflexivity).
  assert (H6 : dict_lookup [(lit "response", PyInt 5)] (lit "response")
               = Some (PyInt 5)) by (vm_compute; reflexivity).
  assert (H7 : truthy (PyInt 5) = true) by reflexivity.
  assert (H8 : forall s, PyInt 5 <> PyStr s) by discriminate.
  split; [exact H1|]. split; [exact H2|]. split; [exact H3|]. split; [exact H4|].
  split; [exact H5|]. split; [exact H6|]. split; [exact H7|]. split; [exact H8|].
  exact (@ill_typed_response_aborts number_libs [response_line "Hel"]
           [response_line "lo"] number_line number_text _ _ _ _ None
           H1 H2 H3 H4 H5 H6 H7 H8).
Defined.

(** The second of three deltas, with and without framing. *)
Lemma data_prefix_is_transparent_witness :
  (forall decoded, decode (response_line "lo") = inr decoded ->
     startswith (strip decoded) (lit "data:") = false)
  /\ stream_loop (libs:=sample_libs)
       ([response_line "Hel"] ++ (ascii_bytes "data:" ++ response_line "lo")
          :: [response_line " world"]) []
     = stream_loop (libs:=sample_libs)
         ([response_line "Hel"] ++ response_line "lo" :: [response_line " world"]) [].
Proof.
  assert (H1 : forall decoded, decode (response_line "lo") = inr decoded ->
                 startswith (strip decoded) (lit "data:") = false).
  { intros decoded Hd. vm_compute in Hd. injection Hd as <-. vm_compute. reflexivity. }
  split; [exact H1|].
  exact (@data_prefix_is_transparent sample_libs [response_line "Hel"]
           [response_line " world"] (response_line "lo") [] H1).
Defined.

(** The question asked with every service up. *)
Lemma ask_call_discipline_witness :
  ask_up = (ask_up.1, ask_up.2)
  /\ collection ask_up.2 = collection world_up
  /\ same_services world_up ask_up.2
  /\ (events_since world_up ask_up.2 = [] <-> whitespace_only (lit "What?") = true)
  /\ exists q_emb context,
       events_since world_up ask_up.2
       `prefix_of` [EmbedCall (lit "What?"); QueryCall q_emb 3;
                    GenerateCall (make_prompt context (lit "What?"))].
Proof.
  assert (H1 : ask_up = (ask_up.1, ask_up.2)) by (vm_compute; reflexivity).
  split; [exact H1|].
  exact (@ask_call_discipline sample_libs (lit "What?") 3 world_up _ _ H1).
Defined.

(** The search answers with an empty list of result lists: indexing it
    raises [IndexError]. *)
Lemma ask_yields_unless_it_raises_witness :
  ask_no_results = (([], Some IndexError), ask_no_results.2)
  /\ (Some IndexError = None -> @nil str <> [])
  /\ (forall e, Some IndexError = Some e ->
        @nil str = [] /\ e ∈ shape_errors
        /\ generate_calls (events_since world_no_results ask_no_results.2) = []
        /\ exists q_emb, events_since world_no_results ask_no_results.2
                         = [EmbedCall (lit "What?"); QueryCall q_emb 3]).
Proof.
  assert (H1 : ask_no_results = (([], Some IndexError), ask_no_results.2))
    by (vm_compute; reflexivity).
  split; [exact H1|].
  exact (@ask_yields_unless_it_raises sample_libs (lit "What?") 3 world_no_results
           _ _ _ H1).
Defined.

(** The two documents of the sample search in the prompt. *)
Lemma prompt_carries_retrieved_documents_witness :
  whitespace_only (lit "What?") = false
  /\ embedding_of (embed_api world_up (trace world_up) (lit "What?"))
     = inr (PyList [PyInt 5])
  /\ query_api world_up (trace world_up ++ [EmbedCall (lit "What?")])
       (PyList [PyInt 5]) 3
     = inr (PyDict [(lit "documents",
                     PyList [PyList [PyStr (lit "alpha"); PyStr (lit "beta")]])])
  /\ dict_get [(lit "documents",
                PyList [PyList [PyStr (lit "alpha"); PyStr (lit "beta")]])]
       (lit "documents") (PyList [PyList []])
     = PyList (PyList (map PyStr [lit "alpha"; lit "beta"]) :: [])
  /\ let prompt := make_prompt (join (newline ++ newline) [lit "alpha"; lit "beta"])
                     (lit "What?") in
     ask_with_context_stream (libs:=sample_libs) (lit "What?") 3 world_up
     = ((stream_answer (libs:=sample_libs)
           (generate_api world_up
              (trace world_up ++ [EmbedCall (lit "What?"); QueryCall (PyList [PyInt 5]) 3])
              prompt), None),
        record_events [EmbedCall (lit "What?"); QueryCall (PyList [PyInt 5]) 3;
                       GenerateCall prompt] world_up).
Proof.
  assert (H1 : whitespace_only (lit "What?") = false) by (vm_compute; reflexivity).
  assert (H2 : embedding_of (embed_api world_up (trace world_up) (lit "What?"))
               = inr (PyList [PyInt 5])) by (vm_compute; reflexivity).
  assert (H3 : query_api world_up (trace world_up ++ [EmbedCall (lit "What?")])
                 (PyList [PyInt 5]) 3
               = inr (PyDict [(lit "documents",
                     PyList [PyList [PyStr (lit "alpha"); PyStr (lit "beta")]])]))
    by (vm_compute; reflexivity).
  assert (H4 : dict_get [(lit "documents",
                PyList [PyList [PyStr (lit "alpha"); PyStr (lit "beta")]])]
                 (lit "documents") (PyList [PyList []])
               = PyList (PyList (map PyStr [lit "alpha"; lit "beta"]) :: []))
    by (vm_compute; reflexivity).
  split; [exact H1|]. split; [exact H2|]. split; [exact H3|]. split; [exact H4|].
  exact (@prompt_carries_retrieved_documents sample_libs (lit "What?") 3 world_up
           _ _ [lit "alpha"; lit "beta"] [] H1 H2 H3 H4).
Defined.
